(** * Ollama-LDAP-auth: the authentication gateway of [main.py]

    A shallow embedding of [main.py] (a FastAPI application that checks a
    [username:password] bearer credential against an LDAP directory,
    caches successful checks in [token_cache] and forwards the request to
    the Ollama backend), and the properties of its specification.

    Conventions.
    - Python [str] values are [string]; header values are decoded latin-1
      by Starlette, so a character is a byte.
    - [time.time()] values are [Z]: the program only compares them and
      adds [CACHE_TTL] to them.
    - [token_cache : Dict[str, float]] is a [gmap string Z].
    - The directory (ldap3), the clock and the backend (httpx) are
      oracles of the environment. Every call to them, every evaluation
      of [TOKEN_PATTERN] and every write to the cache is recorded in the
      [trace] of the [World], in program order.
    - [verify_token_split] has no [await]: a call runs from start to end
      on the world it finds, and leaves the next world.
    - Of the libraries, what the program relies on is modelled. ldap3:
      a bind opens the socket and [unbind()] closes it; under
      [client_strategy=SAFE_SYNC] (line 47) [bind()] returns a tuple
      whether the directory accepts or rejects, and raises otherwise.
      Starlette: [Headers] is a multi-dict whose [dict(...)] keeps the
      first value of a name; a route path is a regular expression
      matched with [re.match]. [CORSMiddleware] answers preflights
      itself; [FastAPI()] serves its documentation routes before the
      route of the program. *)

From Stdlib Require Import ZArith Lia List Ascii String Bool.
From stdpp Require Import base gmap strings list fin_maps.

Local Open Scope Z_scope.

(** ** Strings as Python uses them *)

Module PyStr.

Definition SPACE : ascii := " "%char.
Definition COLON : ascii := ":"%char.
Definition LF : ascii := "010"%char.

Definition nonempty (s : string) : bool :=
  match s with EmptyString => false | String _ _ => true end.

(** [s.startswith(p)] *)
Fixpoint startswith (p s : string) : bool :=
  match p, s with
  | EmptyString, _ => true
  | String a p', String b s' => if decide (a = b) then startswith p' s' else false
  | String _ _, EmptyString => false
  end.

(** [s[n:]] *)
Fixpoint drop (n : nat) (s : string) : string :=
  match n, s with
  | O, _ => s
  | S n', String _ s' => drop n' s'
  | S _, EmptyString => EmptyString
  end.

(** [s.split(sep)] for a one-character separator: every occurrence
    splits, adjacent separators give empty fields, the result is never
    empty. *)
Fixpoint split (sep : ascii) (s : string) : list string :=
  match s with
  | EmptyString => [EmptyString]
  | String c s' =>
      if decide (c = sep) then EmptyString :: split sep s'
      else match split sep s' with
           | x :: xs => String c x :: xs
           | [] => [String c EmptyString]
           end
  end.

(** [s.split(sep, 1)]: split at the first occurrence only. *)
Fixpoint split1 (sep : ascii) (s : string) : list string :=
  match s with
  | EmptyString => [EmptyString]
  | String c s' =>
      if decide (c = sep) then [EmptyString; s']
      else match split1 sep s' with
           | x :: xs => String c x :: xs
           | [] => [String c EmptyString]
           end
  end.

(** [s.lower()] on ASCII letters. *)
Definition lower_ascii (c : ascii) : ascii :=
  let n := nat_of_ascii c in
  if ((65 <=? n)%nat && (n <=? 90)%nat)%bool then ascii_of_nat (n + 32) else c.

Fixpoint lower (s : string) : string :=
  match s with
  | EmptyString => EmptyString
  | String c s' => String (lower_ascii c) (lower s')
  end.

(** The longest prefix of [s] whose characters satisfy [p], and the rest. *)
Fixpoint span (p : ascii -> bool) (s : string) : string * string :=
  match s with
  | EmptyString => (EmptyString, EmptyString)
  | String c s' =>
      if p c then let '(u, r) := span p s' in (String c u, r)
      else (EmptyString, s)
  end.

Fixpoint all (p : ascii -> bool) (s : string) : bool :=
  match s with
  | EmptyString => true
  | String c s' => p c && all p s'
  end.

(** [c in s] *)
Fixpoint mem (c : ascii) (s : string) : bool :=
  match s with
  | EmptyString => false
  | String d s' => if decide (c = d) then true else mem c s'
  end.

(** [c * n] *)
Fixpoint times (c : ascii) (n : nat) : string :=
  match n with
  | O => EmptyString
  | S n' => String c (times c n')
  end.

End PyStr.

(** ** [TOKEN_PATTERN] *)

(** The character class [[a-zA-Z0-9_-]]. *)
Definition token_char (c : ascii) : bool :=
  let n := nat_of_ascii c in
  ((97 <=? n)%nat && (n <=? 122)%nat)
  || ((65 <=? n)%nat && (n <=? 90)%nat)
  || ((48 <=? n)%nat && (n <=? 57)%nat)
  || (n =? 95)%nat || (n =? 45)%nat.

(** [TOKEN_PATTERN.match(s)] for
    [re.compile(r"^[a-zA-Z0-9_-]+:[a-zA-Z0-9_-]+$")].
    Neither [:] nor a line feed is in the class, so each greedy [+] run
    stops where the scan stops and giving characters back never helps.
    Without [re.MULTILINE], [$] matches at the end of the string and also
    just before a line feed that is the last character. *)
Definition TOKEN_PATTERN_match (s : string) : bool :=
  let '(u, r1) := PyStr.span token_char s in
  PyStr.nonempty u &&
  match r1 with
  | String c r2 =>
      if decide (c = PyStr.COLON) then
        let '(p, r3) := PyStr.span token_char r2 in
        PyStr.nonempty p &&
        match r3 with
        | EmptyString => true
        | String d EmptyString => if decide (d = PyStr.LF) then true else false
        | _ => false
        end
      else false
  | EmptyString => false
  end.

(** The credential syntax in the specification's words: exactly one [:]
    separating two non-empty runs of [[A-Za-z0-9_-]]. *)
Definition is_credential (s : string) : bool :=
  match PyStr.split PyStr.COLON s with
  | [u; p] =>
      PyStr.nonempty u && PyStr.nonempty p
      && PyStr.all token_char u && PyStr.all token_char p
  | _ => false
  end.

(** The bearer credential in the specification's words: the raw string
    after the [Bearer ] prefix of the header. *)
Definition bearer_credential (auth_header : string) : option string :=
  if PyStr.startswith "Bearer " auth_header
  then Some (PyStr.drop 7 auth_header) else None.

(** ** Data model *)

Definition bytes := list Byte.byte.

(** Starlette's [Headers]: the ASGI header list. ASGI delivers header
    names lower-cased; values are arbitrary strings. *)
Definition Headers := list (string * string).

(** A Python [dict] with string keys: insertion-ordered, keys unique. *)
Definition PyDict := list (string * string).

Record Request := mkRequest {
  method : string;          (* request.method, upper-case *)
  path : string;            (* the request path, starting with "/" *)
  query_string : string;    (* the part of the URL after "?" *)
  headers : Headers;        (* request.headers *)
  body : bytes              (* await request.body() *)
}.

(** The arguments of [client.build_request(...)]. *)
Record ForwardedRequest := mkForwarded {
  fwd_method : string;
  fwd_url : string;
  fwd_headers : PyDict;
  fwd_content : bytes
}.

(** What [client.send(req, stream=True)] yields. *)
Record BackendResponse := mkBackendResponse {
  r_status_code : Z;
  r_content_type : option string;   (* r.headers.get("content-type") *)
  r_chunks : list bytes             (* r.aiter_bytes() *)
}.

Record StreamingResponse := mkStreaming {
  status : Z;
  media_type : string;
  chunks : list bytes
}.

Record HTTPException := mkHTTPException {
  status_code : Z;
  detail : string
}.

(** What one [conn.bind()] on a fresh ldap3 [Connection] can do. The
    connection is made with [client_strategy=SAFE_SYNC] (line 47), so a
    bind that the directory answers returns the tuple
    [(status, result, response, request)], when the directory accepts
    and when it rejects. A bind first opens the socket; when it raises
    after that, ldap3 has closed the socket itself or has left it open,
    depending on the error. *)
Inductive BindOutcome :=
| BindAccepted      (* returns its tuple, status True *)
| BindRejected      (* returns its tuple, status False *)
| BindOpenFailed    (* raises before a socket is established *)
| BindRaisedClosed  (* raises after the open, the socket closed by ldap3 *)
| BindRaised.       (* raises after the open, the socket left open *)

(** The value [conn.bind()] returns under SAFE_SYNC; of its four fields
    the status is kept. *)
Record BindTuple := mkBindTuple {
  bind_status : bool
}.

(** [None]: the bind raised. *)
Definition bind_result (outcome : BindOutcome) : option BindTuple :=
  match outcome with
  | BindAccepted => Some (mkBindTuple true)
  | BindRejected => Some (mkBindTuple false)
  | BindOpenFailed | BindRaisedClosed | BindRaised => None
  end.

Definition bind_returns (outcome : BindOutcome) : bool :=
  if bind_result outcome is Some _ then true else false.

(** The truth value Python gives a tuple in [if conn.bind():]: false
    for the empty tuple only, and this one has four fields. *)
Definition tuple_truth (_ : BindTuple) : bool := true.

(** Observable steps, in program order. *)
Inductive Event :=
| EvRegex (tok : string)                     (* TOKEN_PATTERN.match(tok) *)
| EvCacheDel (k : string)                    (* del token_cache[k], line 80 *)
| EvCacheSet (k : string) (expiry : Z)       (* token_cache[k] = expiry *)
| EvSweep (now : Z) (keys : list string)     (* lines 36-38 *)
| EvLdapOpen (dn : string)                   (* socket opened by bind() *)
| EvLdapClosed (dn : string)                 (* socket closed by ldap3, raising *)
| EvLdapBind (dn pw : string) (outcome : BindOutcome)   (* bind() ended *)
| EvLdapUnbind (dn : string)                 (* conn.unbind() *)
| EvSend (req : ForwardedRequest).           (* client.send(req) *)

Record World := mkWorld {
  token_cache : gmap string Z;
  clock_reads : nat;          (* calls of time.time() so far *)
  trace : list Event          (* oldest first *)
}.

(** The environment of the process: configuration and oracles. The
    directory may change its mind over time: its answer depends on how
    many binds were attempted before. *)
Record Env := mkEnv {
  OLLAMA_URL : string;
  LDAP_BASE_DN : string;
  CACHE_TTL : Z;
  clock : nat -> Z;                                   (* n-th time.time() *)
  directory : nat -> string -> string -> BindOutcome; (* dn, password *)
  backend : ForwardedRequest -> option BackendResponse (* None: ConnectError *)
}.

(** Number of bind attempts recorded in a trace: one per call of
    [verify_ldap_dynamic]. *)
Definition is_bind (e : Event) : bool :=
  match e with
  | EvLdapBind _ _ _ => true
  | _ => false
  end.

Definition binds (tr : list Event) : nat := length (List.filter is_bind tr).

(** Sockets opened by [bind()] and closed neither by [unbind()] nor by
    ldap3 itself. *)
Definition socket_step (n : nat) (e : Event) : nat :=
  match e with
  | EvLdapOpen _ => S n
  | EvLdapUnbind _ | EvLdapClosed _ => Nat.pred n
  | _ => n
  end.

Definition open_sockets (tr : list Event) : nat := fold_left socket_step tr 0%nat.

(** Every sweep comes right after a cache insert. [prev] tells whether
    the event just before [tr] was an insert. *)
Fixpoint sweeps_follow_inserts (prev : bool) (tr : list Event) : bool :=
  match tr with
  | [] => true
  | EvSweep _ _ :: tr' => prev && sweeps_follow_inserts false tr'
  | EvCacheSet _ _ :: tr' => sweeps_follow_inserts true tr'
  | _ :: tr' => sweeps_follow_inserts false tr'
  end.

(** ** A state and exception monad over [World] *)

Inductive Result (A : Type) :=
| Ok (a : A)
| Raise (e : HTTPException).
Arguments Ok {A} a.
Arguments Raise {A} e.

Definition M (A : Type) : Type := World -> Result A * World.

Definition ret {A} (a : A) : M A := fun w => (Ok a, w).
Definition raise {A} (e : HTTPException) : M A := fun w => (Raise e, w).
Definition bind {A B} (c : M A) (k : A -> M B) : M B :=
  fun w => match c w with
           | (Ok a, w') => k a w'
           | (Raise e, w') => (Raise e, w')
           end.

Notation "'let*' x := c 'in' k" := (bind c (fun x => k))
  (at level 10, x name, c at level 100, k at level 200).
Notation "'run' c 'in' k" := (bind c (fun _ => k))
  (at level 10, c at level 100, k at level 200).

Definition log (e : Event) : M unit :=
  fun w => (Ok tt, mkWorld (token_cache w) (clock_reads w) (trace w ++ [e])).

Definition get_cache : M (gmap string Z) := fun w => (Ok (token_cache w), w).

Definition put_cache (c : gmap string Z) : M unit :=
  fun w => (Ok tt, mkWorld c (clock_reads w) (trace w)).

(** ** Starlette and Python containers *)

(** First value stored under [k]. *)
Fixpoint assoc (k : string) (l : list (string * string)) : option string :=
  match l with
  | [] => None
  | (k', v) :: l' => if decide (k' = k) then Some v else assoc k l'
  end.

(** [request.headers.get(key)]: case-insensitive in [key], first match. *)
Definition headers_get (key : string) (hs : Headers) : option string :=
  assoc (PyStr.lower key) hs.

(** [d[k] = v]: overwrite in place, or append. *)
Fixpoint dict_set (k v : string) (d : PyDict) : PyDict :=
  match d with
  | [] => [(k, v)]
  | (k', v') :: d' =>
      if decide (k' = k) then (k, v) :: d' else (k', v') :: dict_set k v d'
  end.

(** [d.pop(k, None)] *)
Definition dict_pop (k : string) (d : PyDict) : PyDict :=
  List.filter (fun kv => negb (bool_decide (kv.1 = k))) d.

(** [dict(request.headers)]: [Headers] is a [Mapping], so [dict] walks
    [keys()] (the stored names, repeated ones included) and stores
    [headers[k]], the first value held under [k], for each. *)
Definition dict_step (hs : Headers) (d : PyDict) (k : string) : PyDict :=
  match assoc k hs with
  | Some v => dict_set k v d
  | None => d
  end.

Definition dict_of_headers (hs : Headers) : PyDict :=
  fold_left (dict_step hs) (map fst hs) [].

(** ** The program *)

Section Program.

Context (env : Env).

(** [time.time()] *)
Definition time_time : M Z :=
  fun w => (Ok (clock env (clock_reads w)),
            mkWorld (token_cache w) (S (clock_reads w)) (trace w)).

(** Line 36: [[k for k, v in token_cache.items() if v < current_time]] *)
Definition keys_expired (current_time : Z) (cache : gmap string Z) : list string :=
  map fst (List.filter (fun kv => kv.2 <? current_time) (map_to_list cache)).

(** Lines 33-38. *)
Definition clean_expired_cache : M unit :=
  let* current_time := time_time in
  let* cache := get_cache in
  if (1000 <? size cache)%nat then
    let keys_to_delete := keys_expired current_time cache in
    run log (EvSweep current_time keys_to_delete) in
    put_cache (fold_left (fun m k => delete k m) keys_to_delete cache)
  else ret tt.

(** What one [conn.bind()] records: what became of the socket, as the
    outcome tells, and the outcome. *)
Definition bind_events (outcome : BindOutcome) (user_dn password : string)
  : list Event :=
  match outcome with
  | BindAccepted | BindRejected | BindRaised =>
      [EvLdapOpen user_dn; EvLdapBind user_dn password outcome]
  | BindOpenFailed => [EvLdapBind user_dn password outcome]
  | BindRaisedClosed =>
      [EvLdapOpen user_dn; EvLdapClosed user_dn;
       EvLdapBind user_dn password outcome]
  end.

(** [conn.bind()] on the fresh connection of one call. *)
Definition ldap_bind (user_dn password : string) : M BindOutcome :=
  fun w =>
    let outcome := directory env (binds (trace w)) user_dn password in
    (Ok outcome,
     mkWorld (token_cache w) (clock_reads w)
       (trace w ++ bind_events outcome user_dn password)).

(** Line 45 *)
Definition user_dn_of (username : string) : string :=
  "cn=" +:+ username +:+ ",ou=users," +:+ LDAP_BASE_DN env.

(** Lines 40-57. Never raises: the [except] clause returns [False].
    What [bind()] returns is a tuple, so the test of line 49 holds
    whenever [bind()] returns. *)
Definition verify_ldap_dynamic (username password : string) : M bool :=
  let user_dn := user_dn_of username in
  let* outcome := ldap_bind user_dn password in
  match bind_result outcome with
  | Some answer =>
      if tuple_truth answer
      then run log (EvLdapUnbind user_dn) in ret true   (* lines 50-51 *)
      else ret false                                    (* lines 52-54 *)
  | None => ret false                                   (* lines 55-57 *)
  end.

Definition Missing_API_Key : HTTPException :=
  mkHTTPException 401 "Missing API Key".
Definition API_Key_too_long : HTTPException :=
  mkHTTPException 400 "API Key too long".
Definition Invalid_API_Key_Format : HTTPException :=
  mkHTTPException 400
    "Invalid API Key Format. Must be 'username:password' (alphanumeric only)".
Definition Invalid_Username_or_Password : HTTPException :=
  mkHTTPException 403 "Invalid Username or Password".
(** An uncaught Python exception: FastAPI answers 500. *)
Definition Internal_Server_Error : HTTPException :=
  mkHTTPException 500 "Internal Server Error".

(** Lines 75-80: [true] when the cached entry answers the request. *)
Definition cache_check (raw_token : string) (current_time : Z) : M bool :=
  let* cache := get_cache in
  match cache !! raw_token with
  | Some expiry =>
      if current_time <? expiry then ret true
      else run log (EvCacheDel raw_token) in
           run put_cache (delete raw_token cache) in
           ret false
  | None => ret false
  end.

(** Lines 74-89: cache lookup, then the directory. *)
Definition authorize (raw_token : string) : M bool :=
  let* current_time := time_time in
  let* hit := cache_check raw_token current_time in
  if hit then ret true
  else
    match PyStr.split1 PyStr.COLON raw_token with
    | [username; password] =>
        let* ok := verify_ldap_dynamic username password in
        if ok then
          let* cache := get_cache in
          run log (EvCacheSet raw_token (current_time + CACHE_TTL env)) in
          run put_cache (<[raw_token := current_time + CACHE_TTL env]> cache) in
          run clean_expired_cache in
          ret true
        else raise Invalid_Username_or_Password
    | _ => raise Internal_Server_Error   (* ValueError on unpacking *)
    end.

(** Lines 59-89. *)
Definition verify_token_split (request : Request) : M bool :=
  match headers_get "Authorization" (headers request) with
  | None => raise Missing_API_Key
  | Some auth_header =>
      if negb (PyStr.nonempty auth_header)
         || negb (PyStr.startswith "Bearer " auth_header)
      then raise Missing_API_Key
      else
        match PyStr.split PyStr.SPACE auth_header !! 1%nat with
        | None => raise Internal_Server_Error   (* IndexError *)
        | Some raw_token =>
            if (256 <? String.length raw_token)%nat then raise API_Key_too_long
            else
              run log (EvRegex raw_token) in
              if negb (TOKEN_PATTERN_match raw_token)
              then raise Invalid_API_Key_Format
              else authorize raw_token
        end
  end.

(** Lines 94-101: the request handed to [client.build_request]. *)
Definition forward_request (path_param : string) (request : Request)
  : ForwardedRequest :=
  let url := "/" +:+ path_param in
  let body := body request in
  let forward_headers := dict_of_headers (headers request) in
  let forward_headers := dict_pop "host" forward_headers in
  let forward_headers := dict_pop "content-length" forward_headers in
  mkForwarded (method request) url forward_headers body.

Definition Cannot_connect_to_Ollama : HTTPException :=
  mkHTTPException 502 "Cannot connect to Ollama".

(** Lines 92-120, entered once the dependency [verify_token_split] has
    returned. *)
Definition proxy_ollama (path_param : string) (request : Request)
  : M StreamingResponse :=
  let req := forward_request path_param request in
  run log (EvSend req) in
  match backend env req with
  | None => raise Cannot_connect_to_Ollama
  | Some r =>
      ret (mkStreaming (r_status_code r)
             (default "application/json" (r_content_type r))
             (r_chunks r))
  end.

(** Line 91: the methods of the only route. *)
Definition route_methods : list string :=
  ["GET"; "POST"; "PUT"; "DELETE"; "OPTIONS"].

(** The route path ["/{path:path}"]. Starlette compiles it to a regular
    expression, [^/] followed by the group [path] of as many [.] as
    match and by [$], and applies [re.match] to the request path: [.]
    stands for any character but a line feed, and [$] matches at the
    end of the string and just before a line feed that is its last
    character. So the parameter is what follows the leading slash,
    without a final line feed, and a path with a line feed anywhere
    else is not matched. *)
Definition not_line_feed (c : ascii) : bool :=
  negb (bool_decide (c = PyStr.LF)).

Definition match_route (p : string) : option string :=
  match p with
  | String c rest =>
      if decide (c = "/"%char) then
        let '(path_param, r) := PyStr.span not_line_feed rest in
        match r with
        | EmptyString => Some path_param
        | String d EmptyString =>
            if decide (d = PyStr.LF) then Some path_param else None
        | _ => None
        end
      else None
  | EmptyString => None
  end.

(** A route path without parameters, such as ["/docs"], is compiled to
    [^/docs$]: it matches the path itself and the path followed by one
    line feed. *)
Definition match_fixed_route (route_path p : string) : bool :=
  bool_decide (p = route_path)
  || bool_decide (p = route_path +:+ String PyStr.LF EmptyString).

Definition Not_Found : HTTPException := mkHTTPException 404 "Not Found".
Definition Method_Not_Allowed : HTTPException :=
  mkHTTPException 405 "Method Not Allowed".

(** Lines 14-20: [CORSMiddleware] answers a CORS preflight (an [OPTIONS]
    request carrying [Origin] and [Access-Control-Request-Method])
    itself; every other request goes on to the router. *)
Definition is_preflight (request : Request) : bool :=
  bool_decide (method request = "OPTIONS")
  && bool_decide (is_Some (headers_get "origin" (headers request)))
  && bool_decide
       (is_Some (headers_get "access-control-request-method" (headers request))).

(** Line 12: [FastAPI()] registers the routes of its own documentation,
    for [GET] and [HEAD], ahead of every route of the program. *)
Definition docs_paths : list string :=
  ["/openapi.json"; "/docs"; "/docs/oauth2-redirect"; "/redoc"].

Definition is_docs_request (request : Request) : bool :=
  existsb (fun route_path => match_fixed_route route_path (path request))
    docs_paths
  && bool_decide (method request ∈ ["GET"; "HEAD"]).

Inductive Reply :=
| Preflight                           (* answered by the middleware *)
| Documentation                       (* answered by FastAPI itself *)
| Streamed (r : StreamingResponse).   (* answered by [proxy_ollama] *)

(** The application: middleware, route matching (first full match
    wins), the dependency and the handler. *)
Definition app (request : Request) : M Reply :=
  if is_preflight request then ret Preflight
  else if is_docs_request request then ret Documentation
  else
    match match_route (path request) with
    | None => raise Not_Found
    | Some path_param =>
        if bool_decide (method request ∈ route_methods) then
          let* authorized := verify_token_split request in
          let* r := proxy_ollama path_param request in
          ret (Streamed r)
        else raise Method_Not_Allowed
    end.

(** Requests handled one after the other, each on the world the
    previous one left; with each result, the number of binds made for
    that request. *)
Fixpoint serve (requests : list Request) (w : World)
  : list (Result bool * nat) * World :=
  match requests with
  | [] => ([], w)
  | r :: rs =>
      let '(x, w1) := verify_token_split r w in
      let '(xs, w2) := serve rs w1 in
      ((x, (binds (trace w1) - binds (trace w))%nat) :: xs, w2)
  end.

(** The token the handler reads off a request that passes line 64:
    [auth_header.split(" ")[1]]. *)
Definition bearer_token (request : Request) : option string :=
  match headers_get "Authorization" (headers request) with
  | Some auth_header =>
      if PyStr.startswith "Bearer " auth_header
      then PyStr.split PyStr.SPACE auth_header !! 1%nat
      else None
  | None => None
  end.

(** A request whose token passes the checks of lines 68-72. *)
Definition presents (request : Request) (raw_token : string) : Prop :=
  bearer_token request = Some raw_token
  /\ (String.length raw_token <= 256)%nat
  /\ TOKEN_PATTERN_match raw_token = true.

(** What a call of [clean_expired_cache] at time [now] leaves of the
    cache, and what it records. *)
Definition swept (now : Z) (cache : gmap string Z) : gmap string Z :=
  if (1000 <? size cache)%nat
  then filter (fun kv : string * Z => now <= kv.2) cache
  else cache.

Definition sweep_events (now : Z) (cache : gmap string Z) : list Event :=
  if (1000 <? size cache)%nat
  then [EvSweep now (keys_expired now cache)]
  else [].

(** What the lookup of lines 75-80 records when it does not answer. *)
Definition lookup_events (raw_token : string) (cache : gmap string Z)
  : list Event :=
  if cache !! raw_token is Some _ then [EvCacheDel raw_token] else [].

(** A request that reaches the handler of the route with path
    parameter [p]. *)
Definition routed (request : Request) (p : string) : Prop :=
  is_preflight request = false
  /\ is_docs_request request = false
  /\ match_route (path request) = Some p
  /\ method request ∈ ["GET"; "POST"; "PUT"; "DELETE"; "OPTIONS"].

(** The keys [verify_token_split] lets into the cache. *)
Definition accepted_key (k : string) : Prop :=
  (String.length k <= 256)%nat /\ TOKEN_PATTERN_match k = true.

Definition cache_keys_accepted (w : World) : Prop :=
  forall k, is_Some (token_cache w !! k) -> accepted_key k.

End Program.

(** ** What ldap3 does with a password *)

(** Before it sends a simple bind, ldap3 prepares the password with
    SASLprep (RFC 4013) and raises when the password holds a prohibited
    character; the ASCII control characters, the line feed among them,
    are prohibited. *)
Definition control_char (c : ascii) : bool :=
  let n := nat_of_ascii c in
  (n <? 32)%nat || (n =? 127)%nat.

Definition saslprep_prohibited (password : string) : bool :=
  negb (PyStr.all (fun c => negb (control_char c)) password).

(** A directory reached through ldap3: a bind with a prohibited
    password raises. *)
Definition ldap3_directory (env : Env) : Prop :=
  forall n dn pw,
    saslprep_prohibited pw = true -> bind_returns (directory env n dn pw) = false.

(** The keys the specification allows in the cache. *)
Definition credential_key (k : string) : Prop :=
  (String.length k <= 256)%nat /\ is_credential k = true.

Definition cache_keys_credentials (w : World) : Prop :=
  forall k, is_Some (token_cache w !! k) -> credential_key k.

(** ** The specification's statements, where they differ from the code *)



(** "Every header whose bearer credential is malformed is denied with a
    400-class error and the directory is not asked." *)
Definition malformed_denied_as_stated : Prop :=
  forall env request w auth_header credential,
    headers_get "Authorization" (headers request) = Some auth_header ->
    bearer_credential auth_header = Some credential ->
    is_credential credential = false ->
    exists e w',
      verify_token_split env request w = (Raise e, w')
      /\ 400 <= status_code e < 500
      /\ binds (trace w') = binds (trace w).

(** "For every token longer than 256 characters the gateway denies the
    request with the CredentialTooLong error", the token being the
    bearer credential of the header. *)
Definition too_long_denied_as_stated : Prop :=
  forall env request w auth_header credential,
    headers_get "Authorization" (headers request) = Some auth_header ->
    bearer_credential auth_header = Some credential ->
    (256 < String.length credential)%nat ->
    (verify_token_split env request w).1 = Raise API_Key_too_long.

(** "When it runs, the sweep removes exactly those entries whose expiry
    has already lapsed as of the sweep's start time, leaving all
    unexpired entries in place", an entry being unexpired as for the
    lookup: its expiry is strictly greater than the time. *)
Definition sweep_removes_lapsed_as_stated : Prop :=
  forall env w k v,
    (1000 < size (token_cache w))%nat ->
    token_cache (clean_expired_cache env w).2 !! k = Some v
    <-> token_cache w !! k = Some v /\ clock env (clock_reads w) < v.


(** ** Concrete environments and requests *)

Definition stub_clock (n : nat) : Z := 1700000000 + Z.of_nat n.

Definition stub_backend (_ : ForwardedRequest) : option BackendResponse :=
  Some (mkBackendResponse 200 (Some "application/x-ndjson") []).

(** A directory that knows one user, reached through ldap3. *)
Definition directory_alice (_ : nat) (dn pw : string) : BindOutcome :=
  if saslprep_prohibited pw then BindRaised
  else if bool_decide (dn = "cn=alice,ou=users,dc=ldap,dc=goauthentik,dc=io")
          && bool_decide (pw = "Secr3t-1")
  then BindAccepted else BindRejected.

(** No directory listens: the socket cannot be opened. *)
Definition directory_unreachable (_ : nat) (dn pw : string) : BindOutcome :=
  BindOpenFailed.

(** The directory accepts the connection, and the bind then fails with
    an error on which ldap3 leaves the socket as it is. *)
Definition directory_failing (_ : nat) (dn pw : string) : BindOutcome :=
  BindRaised.

Definition env_alice : Env :=
  mkEnv "http://host.docker.internal:11434" "dc=ldap,dc=goauthentik,dc=io" 1800
        stub_clock directory_alice stub_backend.

Definition env_unreachable : Env :=
  mkEnv "http://host.docker.internal:11434" "dc=ldap,dc=goauthentik,dc=io" 1800
        stub_clock directory_unreachable stub_backend.

Definition env_failing : Env :=
  mkEnv "http://host.docker.internal:11434" "dc=ldap,dc=goauthentik,dc=io" 1800
        stub_clock directory_failing stub_backend.

Definition w_init : World := mkWorld ∅ 0 [].

Definition request_of (meth pth query auth : string) : Request :=
  mkRequest meth pth query
    [("host", "gateway:8000"); ("authorization", auth);
     ("accept", "application/json"); ("accept", "text/plain");
     ("content-length", "0")] [].

Definition request_plain (meth pth query auth : string) : Request :=
  mkRequest meth pth query
    [("host", "gateway:8000"); ("authorization", auth);
     ("accept", "application/json"); ("content-length", "0")] [].

Definition alice_token : string := "alice:Secr3t-1".

Definition long_token : string := PyStr.times "a" 300.

(** A world whose cache holds a live entry for [alice_token]. *)
Definition w_cached : World :=
  mkWorld {[ alice_token := stub_clock 0 + 1800 ]} 5 [].

(** A world whose cache holds an expired entry for [alice_token]. *)
Definition w_expired : World :=
  mkWorld {[ alice_token := stub_clock 0 ]} 5 [].

(** A cache above the high-water mark: 1001 entries, the first 500
    expired at [stub_clock 0]. *)
Definition bulk_key (i : nat) : string :=
  String (ascii_of_nat (97 + i mod 26))
    (String (ascii_of_nat (97 + (i / 26) mod 26))
       (String (ascii_of_nat (97 + i / 676)) ":p")).

Definition bulk_cache : gmap string Z :=
  list_to_map
    (map (fun i => (bulk_key i, stub_clock 0 - 500 + Z.of_nat i)) (seq 0 1001)).

Definition w_bulk : World := mkWorld bulk_cache 0 [].

Definition req_alice : Request :=
  request_plain "GET" "/api/tags" "" "Bearer alice:Secr3t-1".

Definition req_bob : Request :=
  request_plain "POST" "/api/generate" "" "Bearer bob:wrong".

Definition req_long : Request :=
  request_plain "GET" "/api/tags" "" ("Bearer " +:+ long_token).

(** A valid token, a space, and 300 more characters. *)
Definition req_long_tail : Request :=
  request_plain "GET" "/api/tags" "" ("Bearer alice:Secr3t-1 " +:+ long_token).

(** The path [/api/tags] followed by a line feed, and a path with a
    line feed inside. *)
Definition req_path_lf : Request :=
  request_plain "GET" ("/api/tags" +:+ String PyStr.LF "") ""
    "Bearer alice:Secr3t-1".

Definition req_path_inner_lf : Request :=
  request_plain "GET" ("/api" +:+ String PyStr.LF "tags") ""
    "Bearer alice:Secr3t-1".

Definition req_malformed : Request :=
  request_plain "GET" "/api/tags" "" "Bearer alice".

(** A token that ends in a line feed. *)
Definition line_feed_token : string := "a:b" +:+ String PyStr.LF "".

Definition req_line_feed : Request :=
  request_plain "GET" "/api/tags" "" ("Bearer " +:+ line_feed_token).

(** The world after [req_alice] was served from [w_init]. *)
Definition w_alice : World := (verify_token_split env_alice req_alice w_init).2.

(** ** Invariants of the cache *)

(** Every cached credential went through a bind that the trace records
    and that returned, the directory having accepted or rejected it. *)
Definition cache_justified (env : Env) (w : World) : Prop :=
  forall k v,
    token_cache w !! k = Some v ->
    exists u p outcome,
      PyStr.split1 PyStr.COLON k = [u; p]
      /\ bind_returns outcome = true
      /\ EvLdapBind (user_dn_of env u) p outcome ∈ trace w.

(** Every expiry in the cache is an earlier reading of the clock plus
    [CACHE_TTL]. *)
Definition cache_expiries_bounded (env : Env) (w : World) : Prop :=
  forall k v,
    token_cache w !! k = Some v ->
    exists i, (i < clock_reads w)%nat /\ v = clock env i + CACHE_TTL env.

(** The application over a run of requests, from the world [w]. *)
Fixpoint handle (env : Env) (requests : list Request) (w : World) : World :=
  match requests with
  | [] => w
  | r :: rs => handle env rs (app env r w).2
  end.

(** ** More concrete environments and requests *)

(** The backend cannot be reached. *)
Definition env_down : Env :=
  mkEnv "http://host.docker.internal:11434" "dc=ldap,dc=goauthentik,dc=io" 1800
        stub_clock directory_alice (fun _ => None).

(** The scheme in lower case. *)
Definition req_lower : Request :=
  request_plain "GET" "/api/tags" "" "bearer alice:Secr3t-1".

(** The same credential on another method, path and body. *)
Definition req_alice_post : Request :=
  mkRequest "POST" "/api/generate" "stream=1"
    [("authorization", "Bearer alice:Secr3t-1"); ("x-trace", "7")]
    [Byte.x7b; Byte.x7d].

(** A cache above the high-water mark in which nothing has expired at
    [stub_clock 0]. *)
Definition live_cache : gmap string Z :=
  list_to_map
    (map (fun i => (bulk_key i, stub_clock 0 + 1 + Z.of_nat i)) (seq 0 1001)).

Definition w_live : World := mkWorld live_cache 0 [].

(** * Proofs *)

(** ** The model on concrete inputs *)

Example split_bearer :
  PyStr.split PyStr.SPACE "Bearer a:b c" = ["Bearer"; "a:b"; "c"].
Proof. reflexivity. Qed.

Example split_double_space :
  PyStr.split PyStr.SPACE "Bearer  x" = ["Bearer"; ""; "x"].
Proof. reflexivity. Qed.

Example split1_first_colon : PyStr.split1 PyStr.COLON "a:b:c" = ["a"; "b:c"].
Proof. reflexivity. Qed.

Example pattern_accepts : TOKEN_PATTERN_match "alice:Secr3t-1" = true.
Proof. reflexivity. Qed.

Example pattern_rejects_second_colon : TOKEN_PATTERN_match "a:b:c" = false.
Proof. reflexivity. Qed.

Example pattern_rejects_empty_secret : TOKEN_PATTERN_match "alice:" = false.
Proof. reflexivity. Qed.

Example pattern_accepts_final_line_feed :
  TOKEN_PATTERN_match ("a:b" +:+ String PyStr.LF "") = true.
Proof. reflexivity. Qed.

Example pattern_rejects_inner_line_feed :
  TOKEN_PATTERN_match ("a:b" +:+ String PyStr.LF "c") = false.
Proof. reflexivity. Qed.

Example dict_first_value_wins :
  dict_of_headers [("accept", "a"); ("x", "1"); ("accept", "b")]
  = [("accept", "a"); ("x", "1")].
Proof. reflexivity. Qed.

Example route_plain : match_route "/api/tags" = Some "api/tags".
Proof. reflexivity. Qed.

Example route_final_line_feed :
  match_route (path req_path_lf) = Some "api/tags".
Proof. reflexivity. Qed.

Example route_inner_line_feed : match_route (path req_path_inner_lf) = None.
Proof. reflexivity. Qed.

(** A final line feed of the path is not forwarded; a path with a line
    feed inside is answered [Not_Found]. *)
Example forward_final_line_feed :
  exists r w,
    app env_alice req_path_lf w_init = (Ok r, w)
    /\ EvSend (forward_request "api/tags" req_alice) ∈ trace w.
Proof. eexists _, _. split; [vm_compute; reflexivity|]. set_solver. Qed.

Example inner_line_feed_not_found :
  app env_alice req_path_inner_lf w_init = (Raise Not_Found, w_init).
Proof. reflexivity. Qed.

(** The scenarios of the specification: [alice:Secr3t-1] twice against a
    directory that knows only her, then [bob:wrong]. *)
Example scenario_alice :
  let '(r1, w1) := verify_token_split env_alice req_alice w_init in
  let '(r2, w2) := verify_token_split env_alice req_alice w1 in
  r1 = Ok true /\ r2 = Ok true
  /\ binds (trace w1) = 1%nat /\ binds (trace w2) = 1%nat.
Proof. vm_compute. repeat split. Qed.

(** The directory rejects [bob:wrong]; [bind()] returns its tuple all
    the same, and the request is let in and its token cached. *)
Example scenario_bob :
  let '(r, w) := verify_token_split env_alice req_bob w_init in
  r = Ok true
  /\ trace w
     = [EvRegex "bob:wrong";
        EvLdapOpen (user_dn_of env_alice "bob");
        EvLdapBind (user_dn_of env_alice "bob") "wrong" BindRejected;
        EvLdapUnbind (user_dn_of env_alice "bob");
        EvCacheSet "bob:wrong" (stub_clock 0 + 1800)]
  /\ token_cache w !! "bob:wrong" = Some (stub_clock 0 + 1800).
Proof. vm_compute. repeat split. Qed.

(** With no directory to reach, [bind()] raises and the request is
    refused. *)
Example scenario_unreachable :
  let '(r, w) := verify_token_split env_unreachable req_alice w_init in
  r = Raise Invalid_Username_or_Password /\ token_cache w = ∅.
Proof. vm_compute. repeat split. Qed.

(** A token that ends in a line feed passes [TOKEN_PATTERN]; ldap3
    refuses its password, and nothing is cached. *)
Example scenario_line_feed :
  let '(r, w) := verify_token_split env_alice req_line_feed w_init in
  TOKEN_PATTERN_match line_feed_token = true
  /\ r = Raise Invalid_Username_or_Password /\ token_cache w = ∅.
Proof. vm_compute. repeat split. Qed.

(** A lapsed entry: it is deleted, the directory is asked again and a
    new entry is stored. *)
Example scenario_expired :
  let '(r, w) := verify_token_split env_alice req_alice w_expired in
  r = Ok true
  /\ trace w
     = [EvRegex alice_token; EvCacheDel alice_token;
        EvLdapOpen (user_dn_of env_alice "alice");
        EvLdapBind (user_dn_of env_alice "alice") "Secr3t-1" BindAccepted;
        EvLdapUnbind (user_dn_of env_alice "alice");
        EvCacheSet alice_token (stub_clock 5 + 1800)]
  /\ token_cache w !! alice_token = Some (stub_clock 5 + 1800).
Proof. vm_compute. repeat split. Qed.

(** At [stub_clock 0] the sweep of [bulk_cache] deletes the 500 entries
    that expired before and keeps the one that expires just then. *)
Example sweep_bulk :
  let w := (clean_expired_cache env_alice w_bulk).2 in
  size (token_cache w) = 501%nat
  /\ token_cache w !! bulk_key 499 = None
  /\ token_cache w !! bulk_key 500 = Some (stub_clock 0).
Proof. vm_compute. repeat split. Qed.


(** ** Facts about the string operations *)

Module StrFacts.
Import PyStr.

Lemma span_app p s u r : span p s = (u, r) -> s = u +:+ r.
Proof.
  revert u r. induction s as [|c s IH]; intros u r; simpl.
  - intros [= <- <-]. reflexivity.
  - destruct (p c).
    + destruct (span p s) as [u' r'] eqn:E. intros [= <- <-].
      rewrite (IH u' r' eq_refl) at 1. reflexivity.
    + intros [= <- <-]. reflexivity.
Qed.

Lemma span_all p s u r : span p s = (u, r) -> all p u = true.
Proof.
  revert u r. induction s as [|c s IH]; intros u r; simpl.
  - intros [= <- <-]. reflexivity.
  - destruct (p c) eqn:Hc.
    + destruct (span p s) as [u' r'] eqn:E. intros [= <- <-].
      simpl. rewrite Hc. simpl. eapply IH. reflexivity.
    + intros [= <- <-]. reflexivity.
Qed.

Lemma span_all_app p u c r :
  all p u = true -> p c = false -> span p (u +:+ String c r) = (u, String c r).
Proof.
  intros Hu Hc. induction u as [|a u IH]; simpl in *.
  - unfold String.app. simpl. rewrite Hc. reflexivity.
  - apply andb_true_iff in Hu as [Ha Hu]. unfold String.app in *. simpl.
    rewrite Ha. rewrite (IH Hu). reflexivity.
Qed.

Lemma span_all_nil p u : all p u = true -> span p u = (u, EmptyString).
Proof.
  induction u as [|a u IH]; simpl; [reflexivity|].
  intros [Ha Hu]%andb_true_iff. rewrite Ha, (IH Hu). reflexivity.
Qed.

Lemma split_no_sep sep u :
  mem sep u = false -> split sep u = [u].
Proof.
  induction u as [|a u IH]; simpl; [reflexivity|].
  destruct (decide (sep = a)) as [->|Hne]; [discriminate|].
  intros H. rewrite (IH H). destruct (decide (a = sep)); [congruence|reflexivity].
Qed.

Lemma split_app_sep sep u r :
  mem sep u = false -> split sep (u +:+ String sep r) = u :: split sep r.
Proof.
  induction u as [|a u IH]; simpl.
  - intros _. unfold String.app. simpl. destruct (decide (sep = sep)); [reflexivity|congruence].
  - destruct (decide (sep = a)) as [->|Hne]; [discriminate|].
    intros H. unfold String.app in *. simpl. rewrite (IH H).
    destruct (decide (a = sep)); [congruence|reflexivity].
Qed.

Lemma split_nonempty sep s : split sep s <> [].
Proof.
  destruct s as [|c s]; simpl; [discriminate|].
  destruct (decide (c = sep)); [discriminate|].
  destruct (split sep s); discriminate.
Qed.

(** The first field of a split has no separator; the string is the
    first field alone, or the first field, a separator and the rest. *)
Lemma split_head sep s x xs :
  split sep s = x :: xs ->
  mem sep x = false /\
  match xs with
  | [] => s = x
  | _ => exists r, s = x +:+ String sep r /\ split sep r = xs
  end.
Proof.
  revert x xs. induction s as [|c s IH]; intros x xs; simpl.
  - intros [= <- <-]. auto.
  - destruct (decide (c = sep)) as [->|Hne].
    + intros [= <- <-]. split; [reflexivity|].
      pose proof (split_nonempty sep s).
      destruct (split sep s) eqn:E; [congruence|]. exists s. auto.
    + destruct (split sep s) as [|y ys] eqn:E; [exfalso; eapply split_nonempty; eauto|].
      intros [= <- <-]. destruct (IH y ys eq_refl) as [Hm Hs].
      split.
      * simpl. destruct (decide (sep = c)); [congruence|assumption].
      * destruct ys; [congruence|].
        destruct Hs as (r & -> & Hr). exists r. auto.
Qed.

Lemma all_no_mem p c u : p c = false -> all p u = true -> mem c u = false.
Proof.
  intros Hc. induction u as [|a u IH]; simpl; [reflexivity|].
  intros [Ha Hu]%andb_true_iff. destruct (decide (c = a)) as [->|]; [congruence|auto].
Qed.

Lemma startswith_app p s : startswith p s = true -> exists r, s = p +:+ r.
Proof.
  revert s. induction p as [|a p IH]; intros s; simpl.
  - intros _. exists s. reflexivity.
  - destruct s as [|b s]; [discriminate|].
    destruct (decide (a = b)) as [->|]; [|discriminate].
    intros [r ->]%IH. exists r. reflexivity.
Qed.

Lemma split1_app_sep sep u r :
  mem sep u = false -> split1 sep (u +:+ String sep r) = [u; r].
Proof.
  induction u as [|a u IH]; simpl.
  - intros _. unfold String.app. simpl. destruct (decide (sep = sep)); [reflexivity|congruence].
  - destruct (decide (sep = a)) as [->|Hne]; [discriminate|].
    intros H. unfold String.app in *. simpl. rewrite (IH H).
    destruct (decide (a = sep)); [congruence|reflexivity].
Qed.

Lemma app_cons_assoc u c p r :
  (u +:+ String c p) +:+ r = u +:+ String c (p +:+ r).
Proof.
  induction u as [|a u IH]; unfold String.app in *; simpl; [reflexivity|].
  by rewrite IH.
Qed.

End StrFacts.

Import StrFacts.

(** ** [TOKEN_PATTERN] against the credential syntax *)

Lemma token_char_colon : token_char PyStr.COLON = false.
Proof. reflexivity. Qed.
Lemma token_char_lf : token_char PyStr.LF = false.
Proof. reflexivity. Qed.

Lemma is_credential_intro u p :
  PyStr.nonempty u = true -> PyStr.nonempty p = true ->
  PyStr.all token_char u = true -> PyStr.all token_char p = true ->
  is_credential (u +:+ String PyStr.COLON p) = true.
Proof.
  intros Hu Hp Au Ap. unfold is_credential.
  rewrite split_app_sep by (eapply all_no_mem; eauto using token_char_colon).
  rewrite split_no_sep by (eapply all_no_mem; eauto using token_char_colon).
  rewrite Hu, Hp, Au, Ap. reflexivity.
Qed.

Lemma is_credential_elim s :
  is_credential s = true ->
  exists u p, s = u +:+ String PyStr.COLON p /\
    PyStr.nonempty u = true /\ PyStr.nonempty p = true /\
    PyStr.all token_char u = true /\ PyStr.all token_char p = true.
Proof.
  unfold is_credential.
  destruct (PyStr.split PyStr.COLON s) as [|u [|p [|q l]]] eqn:E; try discriminate.
  intros H. apply split_head in E as [_ (r & -> & Hr)].
  apply split_head in Hr as [_ ->].
  repeat (apply andb_true_iff in H as [H ?]).
  exists u, p. auto.
Qed.

Lemma TOKEN_PATTERN_match_inv s :
  TOKEN_PATTERN_match s = true ->
  is_credential s = true \/
  exists c, s = c +:+ String PyStr.LF EmptyString /\ is_credential c = true.
Proof.
  unfold TOKEN_PATTERN_match.
  destruct (PyStr.span token_char s) as [u r1] eqn:E1.
  intros [Hu H]%andb_true_iff.
  destruct r1 as [|c r2]; [discriminate|].
  destruct (decide (c = PyStr.COLON)) as [->|]; [|discriminate].
  destruct (PyStr.span token_char r2) as [p r3] eqn:E2.
  apply andb_true_iff in H as [Hp H].
  pose proof (span_app _ _ _ _ E1) as ->.
  pose proof (span_app _ _ _ _ E2) as ->.
  pose proof (span_all _ _ _ _ E1) as Au.
  pose proof (span_all _ _ _ _ E2) as Ap.
  destruct r3 as [|d [|e r4]]; try discriminate.
  - left. replace (p +:+ EmptyString) with p.
    + by apply is_credential_intro.
    + clear. induction p; unfold String.app in *; simpl; congruence.
  - destruct (decide (d = PyStr.LF)) as [->|]; [|discriminate].
    right. exists (u +:+ String PyStr.COLON p). split.
    + clear. induction u as [|a u IH]; unfold String.app in *; simpl.
      * f_equal.
      * by rewrite IH.
    + by apply is_credential_intro.
Qed.

Lemma is_credential_match s :
  is_credential s = true -> TOKEN_PATTERN_match s = true.
Proof.
  intros (u & p & -> & Hu & Hp & Au & Ap)%is_credential_elim.
  unfold TOKEN_PATTERN_match.
  rewrite span_all_app by (auto using token_char_colon).
  rewrite Hu. simpl. destruct (decide (PyStr.COLON = PyStr.COLON)); [|congruence].
  rewrite span_all_nil by done. rewrite Hp. reflexivity.
Qed.

(** [TOKEN_PATTERN] accepts the credentials and the credentials followed
    by one line feed, nothing else. *)
Lemma TOKEN_PATTERN_match_iff s :
  TOKEN_PATTERN_match s = true <->
  is_credential s = true
  \/ exists c, s = c +:+ String PyStr.LF EmptyString /\ is_credential c = true.
Proof.
  split; [apply TOKEN_PATTERN_match_inv|].
  intros [H|(c & -> & H)]; [by apply is_credential_match|].
  apply is_credential_elim in H as (u & p & -> & Hu & Hp & Au & Ap).
  rewrite app_cons_assoc. unfold TOKEN_PATTERN_match.
  rewrite span_all_app by (auto using token_char_colon).
  rewrite Hu. simpl. destruct (decide (PyStr.COLON = PyStr.COLON)); [|congruence].
  rewrite span_all_app by (auto using token_char_lf). rewrite Hp. simpl.
  by destruct (decide (PyStr.LF = PyStr.LF)).
Qed.

Lemma mem_app_last c s d : PyStr.mem c (s +:+ String d EmptyString) = PyStr.mem c s || bool_decide (c = d).
Proof.
  induction s as [|a s IH]; unfold String.app in *; simpl.
  - destruct (decide (c = d)); [by rewrite bool_decide_true|by rewrite bool_decide_false].
  - destruct (decide (c = a)); [reflexivity|apply IH].
Qed.

Lemma match_no_lf s :
  TOKEN_PATTERN_match s = true -> PyStr.mem PyStr.LF s = false -> is_credential s = true.
Proof.
  intros [H|(c & -> & _)]%TOKEN_PATTERN_match_inv; [done|].
  rewrite mem_app_last, bool_decide_true by done. by rewrite orb_true_r.
Qed.

Lemma bearer_split h :
  PyStr.startswith "Bearer " h = true ->
  exists tok rest, PyStr.split PyStr.SPACE h = "Bearer" :: tok :: rest.
Proof.
  intros [r ->]%startswith_app.
  change ("Bearer " +:+ r) with ("Bearer" +:+ String PyStr.SPACE r).
  rewrite split_app_sep by reflexivity.
  pose proof (split_nonempty PyStr.SPACE r).
  destruct (PyStr.split PyStr.SPACE r) as [|tok rest]; [congruence|]. eauto.
Qed.

Lemma match_split1 tok :
  TOKEN_PATTERN_match tok = true ->
  exists u p, PyStr.split1 PyStr.COLON tok = [u; p].
Proof.
  intros [H|(c & -> & H)]%TOKEN_PATTERN_match_inv;
    apply is_credential_elim in H as (u & p & -> & _ & _ & Au & _).
  - exists u, p. apply split1_app_sep. eapply all_no_mem; eauto using token_char_colon.
  - exists u, (p +:+ String PyStr.LF EmptyString).
    replace ((u +:+ String PyStr.COLON p) +:+ String PyStr.LF "")
      with (u +:+ String PyStr.COLON (p +:+ String PyStr.LF "")).
    + apply split1_app_sep. eapply all_no_mem; eauto using token_char_colon.
    + clear. induction u as [|a u IH]; unfold String.app in *; simpl; [reflexivity|by rewrite IH].
Qed.
(** ** Facts about [dict] and [Headers] *)

Module DictFacts.

Lemma assoc_dict_set k v d k' :
  assoc k' (dict_set k v d) = if decide (k = k') then Some v else assoc k' d.
Proof.
  induction d as [|[a b] d IH]; cbn.
  - destruct (decide (k = k')); reflexivity.
  - destruct (decide (a = k)) as [->|Hne]; cbn.
    + destruct (decide (k = k')); reflexivity.
    + rewrite IH. destruct (decide (a = k')) as [->|]; [|reflexivity].
      destruct (decide (k = k')); [congruence|reflexivity].
Qed.




Lemma assoc_Some_elem k v d : assoc k d = Some v -> (k, v) ∈ d.
Proof.
  induction d as [|[a b] d IH]; cbn; [discriminate|].
  destruct (decide (a = k)) as [->|]; [intros [= ->]; by left|].
  intros H. right. by apply IH.
Qed.

Lemma assoc_None_keys k d : assoc k d = None <-> k ∉ map fst d.
Proof.
  induction d as [|[a b] d IH]; cbn.
  - split; [intros _ H; by apply elem_of_nil in H|done].
  - destruct (decide (a = k)) as [->|Hne].
    + split; [discriminate|]. intros H. exfalso. apply H. by left.
    + rewrite IH. split.
      * intros H H'. apply elem_of_cons in H' as [->|?]; [congruence|done].
      * intros H H'. apply H. by right.
Qed.


Section Fold.
Context (hs : Headers).


Lemma fold_step_assoc ks d k' :
  (forall k, k ∈ ks -> is_Some (assoc k hs)) ->
  assoc k' (fold_left (dict_step hs) ks d) =
  if decide (k' ∈ ks) then assoc k' hs else assoc k' d.
Proof.
  revert d. induction ks as [|k ks IH]; intros d Hks; cbn [fold_left].
  - destruct (decide (k' ∈ [])) as [H|]; [by apply elem_of_nil in H|reflexivity].
  - rewrite IH by (intros x Hx; apply Hks; by right).
    destruct (Hks k) as [v Hv]; [by left|].
    unfold dict_step. rewrite Hv, assoc_dict_set.
    destruct (decide (k' ∈ ks)) as [Hin|Hout],
             (decide (k' ∈ k :: ks)) as [Hin'|Hout']; try reflexivity.
    + exfalso. apply Hout'. by right.
    + apply elem_of_cons in Hin' as [->|?]; [|done]. by rewrite decide_True.
    + rewrite decide_False; [reflexivity|]. intros ->. apply Hout'. by left.
Qed.


End Fold.

Lemma assoc_dict_of_headers hs k : assoc k (dict_of_headers hs) = assoc k hs.
Proof.
  unfold dict_of_headers.
  rewrite fold_step_assoc.
  - destruct (decide (k ∈ map fst hs)) as [|Hout]; [reflexivity|].
    cbn. symmetry. by apply assoc_None_keys.
  - intros x Hx. destruct (assoc x hs) eqn:E; [eauto|].
    by apply assoc_None_keys in E.
Qed.



Lemma assoc_dict_pop k d k' :
  assoc k' (dict_pop k d) = if decide (k' = k) then None else assoc k' d.
Proof.
  unfold dict_pop. induction d as [|[a b] d IH]; cbn.
  - by destruct (decide (k' = k)).
  - destruct (decide (a = k)) as [->|Hne].
    + rewrite bool_decide_true by done. cbn. rewrite IH.
      destruct (decide (k' = k)) as [->|]; [reflexivity|].
      by rewrite decide_False.
    + rewrite bool_decide_false by done. cbn. rewrite IH.
      destruct (decide (a = k')) as [->|]; [|reflexivity].
      by rewrite decide_False.
Qed.


End DictFacts.

Import DictFacts.

(** ** Facts about traces and the sweep *)

(** Closes a goal from [H : e ∈ l] when [e] differs from every element
    of the explicit list [l]. *)
Ltac absent_from_list H :=
  cbn in H;
  repeat (apply elem_of_cons in H as [H|H]; [discriminate H|]);
  by apply elem_of_nil in H.

(** Finds [e] in an explicit list. *)
Ltac present_in_list :=
  cbn; repeat (first [by left | right]).


Lemma binds_app a b : binds (a ++ b) = (binds a + binds b)%nat.
Proof. unfold binds. by rewrite List.filter_app, length_app. Qed.

Lemma fold_delete_lookup (ks : list string) (m : gmap string Z) k :
  fold_left (fun m k => delete k m) ks m !! k =
  if decide (k ∈ ks) then None else m !! k.
Proof.
  revert m. induction ks as [|a ks IH]; intros m.
  - cbn [fold_left]. destruct (decide (k ∈ [])) as [Hin|]; [by apply elem_of_nil in Hin|reflexivity].
  - cbn [fold_left]. rewrite IH.
    destruct (decide (k ∈ ks)) as [Hin|Hout], (decide (k ∈ a :: ks)) as [Hin'|Hout'].
    + reflexivity.
    + exfalso. apply Hout'. by right.
    + apply elem_of_cons in Hin' as [->|?]; [apply lookup_delete_eq|done].
    + apply lookup_delete_ne. intros ->. apply Hout'. by left.
Qed.

Lemma elem_of_keys_expired now (m : gmap string Z) k :
  k ∈ keys_expired now m <-> exists v, m !! k = Some v /\ v < now.
Proof.
  unfold keys_expired. rewrite list_elem_of_In, in_map_iff. split.
  - intros ([k' v] & <- & Hin). apply filter_In in Hin as [Hin Hlt].
    apply list_elem_of_In, elem_of_map_to_list in Hin. simpl in *.
    exists v. split; [done|]. by apply Z.ltb_lt.
  - intros (v & Hk & Hlt). exists (k, v). split; [done|].
    apply filter_In. split.
    + by apply list_elem_of_In, elem_of_map_to_list.
    + simpl. by apply Z.ltb_lt.
Qed.

Lemma sweep_is_filter now (m : gmap string Z) :
  fold_left (fun m k => delete k m) (keys_expired now m) m
  = filter (fun kv : string * Z => now <= kv.2) m.
Proof.
  apply map_eq. intros k. rewrite fold_delete_lookup.
  destruct (m !! k) as [v|] eqn:Hk.
  - destruct (decide (v < now)) as [Hlt|Hge].
    + rewrite decide_True by (apply elem_of_keys_expired; eauto).
      symmetry. apply map_lookup_filter_None. right. intros v' Hv'. simpl.
      rewrite Hk in Hv'. injection Hv' as <-. lia.
    + rewrite decide_False.
      * symmetry. apply map_lookup_filter_Some. split; [done|]. simpl. lia.
      * intros (v' & Hv' & Hlt)%elem_of_keys_expired. rewrite Hk in Hv'.
        injection Hv' as <-. lia.
  - rewrite decide_False.
    + symmetry. apply map_lookup_filter_None. by left.
    + intros (v' & Hv' & _)%elem_of_keys_expired. congruence.
Qed.

Lemma swept_lookup now (m : gmap string Z) k v :
  swept now m !! k = Some v ->
  m !! k = Some v.
Proof.
  unfold swept. destruct (1000 <? size m)%nat; [|done].
  by intros [? _]%map_lookup_filter_Some.
Qed.

Lemma swept_keeps now (m : gmap string Z) k v :
  m !! k = Some v -> now <= v -> swept now m !! k = Some v.
Proof.
  intros Hk Hv. unfold swept. destruct (1000 <? size m)%nat; [|done].
  by apply map_lookup_filter_Some.
Qed.

Lemma sweeps_follow_inserts_send b new r :
  sweeps_follow_inserts b (new ++ [EvSend r]) = sweeps_follow_inserts b new.
Proof.
  revert b. induction new as [|e new IH]; intros b; [reflexivity|].
  destruct e; cbn; by rewrite ?IH.
Qed.

Lemma sweeps_follow_inserts_sweep t c :
  sweeps_follow_inserts true (sweep_events t c) = true.
Proof. unfold sweep_events. by destruct (1000 <? size c)%nat. Qed.

(** ** What each run leaves *)

Section Syntax.

Context (env : Env).

Lemma bearer_token_none req w :
  bearer_token req = None -> verify_token_split env req w = (Raise Missing_API_Key, w).
Proof.
  unfold bearer_token, verify_token_split.
  destruct (headers_get "Authorization" (headers req)) as [h|]; [|reflexivity].
  destruct (PyStr.startswith "Bearer " h) eqn:E.
  - destruct (bearer_split h E) as (tok & rest & ->). discriminate.
  - intros _. rewrite orb_true_r. reflexivity.
Qed.

Lemma bearer_token_some req tok w :
  bearer_token req = Some tok ->
  verify_token_split env req w =
    if (256 <? String.length tok)%nat then (Raise API_Key_too_long, w)
    else if TOKEN_PATTERN_match tok
         then authorize env tok (mkWorld (token_cache w) (clock_reads w) (trace w ++ [EvRegex tok]))
         else (Raise Invalid_API_Key_Format,
               mkWorld (token_cache w) (clock_reads w) (trace w ++ [EvRegex tok])).
Proof.
  unfold bearer_token, verify_token_split.
  destruct (headers_get "Authorization" (headers req)) as [h|]; [|discriminate].
  destruct (PyStr.startswith "Bearer " h) eqn:E; [|discriminate].
  intros ->.
  assert (PyStr.nonempty h = true) as ->.
  { destruct h; [discriminate|reflexivity]. }
  simpl. destruct (256 <? String.length tok)%nat; [reflexivity|].
  unfold bind, log. destruct (TOKEN_PATTERN_match tok); reflexivity.
Qed.

End Syntax.

Section Steps.

Context (env : Env).

Lemma clean_expired_cache_run w :
  clean_expired_cache env w =
  (Ok tt, mkWorld (swept (clock env (clock_reads w)) (token_cache w))
                  (S (clock_reads w))
                  (trace w ++ sweep_events (clock env (clock_reads w)) (token_cache w))).
Proof.
  unfold clean_expired_cache, bind, time_time, get_cache, swept, sweep_events. simpl.
  destruct (1000 <? size (token_cache w))%nat.
  - unfold log, put_cache. simpl. by rewrite sweep_is_filter.
  - unfold ret. by rewrite app_nil_r.
Qed.

Lemma verify_ldap_dynamic_run u p w :
  let dn := user_dn_of env u in
  let o := directory env (binds (trace w)) dn p in
  verify_ldap_dynamic env u p w =
  (Ok (bind_returns o),
   mkWorld (token_cache w) (clock_reads w)
     (trace w ++ (bind_events o dn p
                  ++ (if bind_returns o then [EvLdapUnbind dn] else [])))).
Proof.
  simpl. unfold verify_ldap_dynamic, bind, ldap_bind.
  destruct (directory env (binds (trace w)) (user_dn_of env u) p); simpl;
    unfold ret; simpl; rewrite <- ?app_assoc; simpl; try reflexivity;
    by rewrite ?app_nil_r.
Qed.

Lemma authorize_fresh tok w e :
  token_cache w !! tok = Some e ->
  clock env (clock_reads w) < e ->
  authorize env tok w = (Ok true, mkWorld (token_cache w) (S (clock_reads w)) (trace w)).
Proof.
  intros He Hlt. unfold authorize, cache_check, bind, time_time, get_cache.
  cbn [token_cache clock_reads trace].
  rewrite He. apply Z.ltb_lt in Hlt. rewrite Hlt. reflexivity.
Qed.

Lemma authorize_miss tok w u p :
  (forall e, token_cache w !! tok = Some e -> e <= clock env (clock_reads w)) ->
  PyStr.split1 PyStr.COLON tok = [u; p] ->
  let t := clock env (clock_reads w) in
  let t' := clock env (S (clock_reads w)) in
  let dn := user_dn_of env u in
  let o := directory env (binds (trace w)) dn p in
  let cache0 := delete tok (token_cache w) in
  let cache1 := <[tok := t + CACHE_TTL env]> (token_cache w) in
  let tr0 := trace w ++ (lookup_events tok (token_cache w) ++ bind_events o dn p) in
  authorize env tok w =
  if bind_returns o then
    (Ok true,
     mkWorld (swept t' cache1) (S (S (clock_reads w)))
       (tr0 ++ ([EvLdapUnbind dn; EvCacheSet tok (t + CACHE_TTL env)]
                ++ sweep_events t' cache1)))
  else
    (Raise Invalid_Username_or_Password, mkWorld cache0 (S (clock_reads w)) tr0).
Proof.
  intros Hstale Hsplit. cbv zeta.
  unfold authorize, cache_check, lookup_events.
  unfold bind at 1. unfold time_time at 1. cbn [token_cache clock_reads trace].
  unfold bind at 1. unfold bind at 1. unfold get_cache at 1.
  cbn [token_cache clock_reads trace].
  destruct (token_cache w !! tok) as [e|] eqn:He.
  - specialize (Hstale e eq_refl).
    assert ((clock env (clock_reads w) <? e) = false) as -> by (apply Z.ltb_ge; lia).
    unfold bind, log, put_cache, ret, get_cache. cbn [token_cache clock_reads trace].
    rewrite Hsplit. rewrite verify_ldap_dynamic_run. cbn [token_cache clock_reads trace].
    rewrite binds_app. cbn [binds List.filter is_bind length]. rewrite Nat.add_0_r.
    destruct (bind_returns (directory env (binds (trace w)) (user_dn_of env u) p));
      cbn [token_cache clock_reads trace];
      rewrite ?clean_expired_cache_run; cbn [token_cache clock_reads trace];
      rewrite ?insert_delete_eq, <- ?app_assoc; cbn [app];
      rewrite ?app_nil_r; reflexivity.
  - unfold bind, log, put_cache, ret, get_cache. cbn [token_cache clock_reads trace].
    rewrite Hsplit. rewrite verify_ldap_dynamic_run. cbn [token_cache clock_reads trace].
    rewrite (delete_id _ _ He).
    destruct (bind_returns (directory env (binds (trace w)) (user_dn_of env u) p));
      cbn [token_cache clock_reads trace];
      rewrite ?clean_expired_cache_run; cbn [token_cache clock_reads trace];
      rewrite <- ?app_assoc; cbn [app];
      rewrite ?app_nil_r; reflexivity.
Qed.

End Steps.

Section Handler.

Context (env : Env).

Lemma app_routed req p w :
  routed req p ->
  app env req w =
  match verify_token_split env req w with
  | (Ok _, w1) =>
      match proxy_ollama env p req w1 with
      | (Ok r, w2) => (Ok (Streamed r), w2)
      | (Raise e, w2) => (Raise e, w2)
      end
  | (Raise e, w1) => (Raise e, w1)
  end.
Proof.
  intros (Hpre & Hdocs & Hroute & Hm). unfold app. rewrite Hpre, Hdocs, Hroute.
  rewrite bool_decide_true by exact Hm.
  unfold bind. destruct (verify_token_split env req w) as [[a|e] w1]; [|reflexivity].
  destruct (proxy_ollama env p req w1) as [[r|e] w2]; reflexivity.
Qed.

Lemma app_denied req p w e w1 :
  routed req p ->
  verify_token_split env req w = (Raise e, w1) ->
  app env req w = (Raise e, w1).
Proof. intros Hr Hv. rewrite (app_routed _ _ _ Hr), Hv. reflexivity. Qed.

Lemma presents_run req tok w :
  presents req tok ->
  verify_token_split env req w =
  authorize env tok (mkWorld (token_cache w) (clock_reads w) (trace w ++ [EvRegex tok])).
Proof.
  intros (Htok & Hlen & Hm). rewrite (bearer_token_some env _ _ _ Htok), Hm.
  apply Nat.leb_le in Hlen. rewrite Nat.ltb_antisym, Hlen. reflexivity.
Qed.

Lemma binds_snoc_regex tr tok : binds (tr ++ [EvRegex tok]) = binds tr.
Proof. rewrite binds_app. cbn. lia. Qed.

Lemma binds_sweep_events t c : binds (sweep_events t c) = 0%nat.
Proof. unfold sweep_events. destruct (1000 <? size c)%nat; reflexivity. Qed.

(** the world a miss leaves, whatever the directory says *)
Lemma miss_run req tok w :
  presents req tok ->
  (forall e, token_cache w !! tok = Some e -> e <= clock env (clock_reads w)) ->
  exists u p,
    PyStr.split1 PyStr.COLON tok = [u; p] /\
    let t := clock env (clock_reads w) in
    let t' := clock env (S (clock_reads w)) in
    let dn := user_dn_of env u in
    let o := directory env (binds (trace w)) dn p in
    let cache1 := <[tok := t + CACHE_TTL env]> (token_cache w) in
    let tr0 := trace w ++ ([EvRegex tok] ++ lookup_events tok (token_cache w) ++ bind_events o dn p) in
    verify_token_split env req w =
    if bind_returns o then
      (Ok true,
       mkWorld (swept t' cache1) (S (S (clock_reads w)))
         (tr0 ++ ([EvLdapUnbind dn; EvCacheSet tok (t + CACHE_TTL env)]
                  ++ sweep_events t' cache1)))
    else
      (Raise Invalid_Username_or_Password,
       mkWorld (delete tok (token_cache w)) (S (clock_reads w)) tr0).
Proof.
  intros Hp Hstale. pose proof Hp as (_ & _ & Hm).
  destruct (match_split1 tok Hm) as (u & p & Hsplit).
  exists u, p. split; [exact Hsplit|]. cbv zeta.
  rewrite (presents_run _ _ _ Hp).
  rewrite (authorize_miss env tok _ u p); cbn [token_cache clock_reads trace]; [|exact Hstale|exact Hsplit].
  rewrite binds_snoc_regex. rewrite <- !app_assoc. reflexivity.
Qed.

End Handler.

Section Lookup.

Context (env : Env).

Lemma fresh_run req tok w e :
  presents req tok ->
  token_cache w !! tok = Some e ->
  clock env (clock_reads w) < e ->
  verify_token_split env req w =
  (Ok true, mkWorld (token_cache w) (S (clock_reads w)) (trace w ++ [EvRegex tok])).
Proof.
  intros Hp He Hlt. rewrite (presents_run env _ _ _ Hp).
  by rewrite (authorize_fresh env tok _ e).
Qed.

Lemma verify_ldap_dynamic_false u p w :
  (verify_ldap_dynamic env u p w).1 = Ok false <->
  bind_returns (directory env (binds (trace w)) (user_dn_of env u) p) = false.
Proof.
  rewrite verify_ldap_dynamic_run. cbn.
  destruct (directory env (binds (trace w)) (user_dn_of env u) p); split;
    cbn; congruence.
Qed.

(** whoever gets an answer from the directory gets in *)
Lemma answered_credential_succeeds req tok u p w :
  presents req tok ->
  PyStr.split1 PyStr.COLON tok = [u; p] ->
  bind_returns (directory env (binds (trace w)) (user_dn_of env u) p) = true ->
  (verify_token_split env req w).1 = Ok true.
Proof.
  intros Hp Hs Hacc.
  destruct (token_cache w !! tok) as [e|] eqn:He.
  - destruct (decide (clock env (clock_reads w) < e)) as [Hlt|Hge].
    + by rewrite (fresh_run _ _ _ _ Hp He Hlt).
    + destruct (miss_run env req tok w Hp) as (u' & p' & Hs' & Hrun).
      { intros e' He'. rewrite He in He'. injection He' as <-. lia. }
      rewrite Hs in Hs'. injection Hs' as <- <-. cbv zeta in Hrun.
      by rewrite Hrun, Hacc.
  - destruct (miss_run env req tok w Hp) as (u' & p' & Hs' & Hrun).
    { intros e' He'. congruence. }
    rewrite Hs in Hs'. injection Hs' as <- <-. cbv zeta in Hrun.
    by rewrite Hrun, Hacc.
Qed.

End Lookup.

Section Traces.

Context (env : Env).

Lemma verify_token_split_events req w :
  exists new,
    trace (verify_token_split env req w).2 = trace w ++ new
    /\ sweeps_follow_inserts false new = true.
Proof.
  destruct (bearer_token req) as [tok|] eqn:Htok.
  2:{ rewrite (bearer_token_none env _ _ Htok). exists []. by rewrite app_nil_r. }
  rewrite (bearer_token_some env _ _ _ Htok).
  destruct (256 <? String.length tok)%nat eqn:Hlen.
  { exists []. by rewrite app_nil_r. }
  destruct (TOKEN_PATTERN_match tok) eqn:Hm.
  2:{ exists [EvRegex tok]. done. }
  assert (presents req tok) as Hp.
  { split; [done|]. split; [|done]. apply Nat.ltb_ge in Hlen. lia. }
  rewrite <- (presents_run env _ _ _ Hp).
  destruct (token_cache w !! tok) as [e|] eqn:He.
  - destruct (decide (clock env (clock_reads w) < e)) as [Hlt|Hge].
    + rewrite (fresh_run env _ _ _ _ Hp He Hlt). exists [EvRegex tok]. done.
    + destruct (miss_run env req tok w Hp) as (u & p & Hs & Hrun).
      { intros e' He'. rewrite He in He'. injection He' as <-. lia. }
      cbv zeta in Hrun. rewrite Hrun. unfold lookup_events. rewrite He.
      destruct (directory env (binds (trace w)) (user_dn_of env u) p);
        cbn [bind_returns bind_result snd trace]; rewrite <- ?app_assoc;
        eexists; (split; [reflexivity|]);
        cbn -[sweep_events]; try reflexivity;
        apply sweeps_follow_inserts_sweep.
  - destruct (miss_run env req tok w Hp) as (u & p & Hs & Hrun).
    { intros e' He'. congruence. }
    cbv zeta in Hrun. rewrite Hrun. unfold lookup_events. rewrite He.
    destruct (directory env (binds (trace w)) (user_dn_of env u) p);
      cbn [bind_returns bind_result snd trace]; rewrite <- ?app_assoc;
      eexists; (split; [reflexivity|]);
      cbn -[sweep_events]; try reflexivity;
      apply sweeps_follow_inserts_sweep.
Qed.

Lemma app_events req w :
  exists new,
    trace (app env req w).2 = trace w ++ new
    /\ sweeps_follow_inserts false new = true.
Proof.
  unfold app. destruct (is_preflight req).
  { exists []. by rewrite app_nil_r. }
  destruct (is_docs_request req).
  { exists []. by rewrite app_nil_r. }
  destruct (match_route (path req)) as [p|].
  2:{ exists []. by rewrite app_nil_r. }
  destruct (bool_decide (method req ∈ route_methods)).
  2:{ exists []. by rewrite app_nil_r. }
  destruct (verify_token_split_events req w) as (new & Hnew & Hs).
  unfold bind. destruct (verify_token_split env req w) as [[a|e] w1]; cbn [snd] in *.
  - unfold proxy_ollama, bind, log. cbn [token_cache clock_reads trace].
    exists (new ++ [EvSend (forward_request p req)]).
    split.
    + destruct (backend env (forward_request p req)); cbn; by rewrite Hnew, app_assoc.
    + by rewrite sweeps_follow_inserts_send.
  - by exists new.
Qed.

(** What a request can do to the cache and the clock. *)
Lemma verify_token_split_cases req w :
  let w' := (verify_token_split env req w).2 in
  (token_cache w' = token_cache w
   /\ (clock_reads w <= clock_reads w' <= S (clock_reads w))%nat)
  \/ exists tok,
       presents req tok
       /\ (forall e, token_cache w !! tok = Some e -> e <= clock env (clock_reads w))
       /\ ((token_cache w' = delete tok (token_cache w)
            /\ clock_reads w' = S (clock_reads w))
           \/ (exists v, token_cache w'
                         = swept (clock env (S (clock_reads w)))
                             (<[tok:=v]> (token_cache w))
                         /\ clock_reads w' = S (S (clock_reads w)))).
Proof.
  cbv zeta.
  destruct (bearer_token req) as [tok|] eqn:Htok.
  2:{ rewrite (bearer_token_none env _ _ Htok). left. cbn. split; [done|lia]. }
  rewrite (bearer_token_some env _ _ _ Htok).
  destruct (256 <? String.length tok)%nat eqn:Hlen; [left; cbn; split; [done|lia]|].
  destruct (TOKEN_PATTERN_match tok) eqn:Hm; [|left; cbn; split; [done|lia]].
  assert (presents req tok) as Hp.
  { split; [done|]. split; [|done]. apply Nat.ltb_ge in Hlen. lia. }
  rewrite <- (presents_run env _ _ _ Hp).
  assert (forall e, token_cache w !! tok = Some e ->
                    ~ clock env (clock_reads w) < e ->
                    forall e', token_cache w !! tok = Some e' ->
                               e' <= clock env (clock_reads w)) as Hst.
  { intros e He Hge e' He'. rewrite He in He'. injection He' as <-. lia. }
  destruct (token_cache w !! tok) as [e|] eqn:He.
  - destruct (decide (clock env (clock_reads w) < e)) as [Hlt|Hge].
    + rewrite (fresh_run env _ _ _ _ Hp He Hlt). left. cbn. split; [done|lia].
    + right. exists tok. split; [done|].
      rewrite He. split; [by apply (Hst e)|].
      destruct (miss_run env req tok w Hp) as (u & p & Hs & Hrun).
      { rewrite He. by apply (Hst e). }
      cbv zeta in Hrun. rewrite Hrun.
      destruct (bind_returns (directory env (binds (trace w)) (user_dn_of env u) p));
        cbn [snd token_cache clock_reads]; eauto.
  - right. exists tok. split; [done|]. rewrite He. split; [congruence|].
    destruct (miss_run env req tok w Hp) as (u & p & Hs & Hrun).
    { rewrite He. congruence. }
    cbv zeta in Hrun. rewrite Hrun.
    destruct (bind_returns (directory env (binds (trace w)) (user_dn_of env u) p));
      cbn [snd token_cache clock_reads]; eauto.
Qed.

Lemma verify_token_split_reads req w :
  (clock_reads w <= clock_reads (verify_token_split env req w).2
   <= S (S (clock_reads w)))%nat.
Proof.
  destruct (verify_token_split_cases req w)
    as [[_ H]|(tok & _ & _ & [[_ H]|(v & _ & H)])]; lia.
Qed.

(** A live entry outlives every request served while the clock stays
    below its expiry. *)
Lemma verify_token_split_keeps_fresh req w tok e :
  token_cache w !! tok = Some e ->
  clock env (clock_reads w) < e ->
  clock env (S (clock_reads w)) <= e ->
  token_cache (verify_token_split env req w).2 !! tok = Some e.
Proof.
  intros He Hlt Hle.
  destruct (verify_token_split_cases req w)
    as [[-> _]|(tok' & _ & Hstale & [[-> _]|(v & -> & _)])]; [done|..].
  - rewrite lookup_delete_ne; [done|]. intros ->.
    specialize (Hstale e He). lia.
  - apply swept_keeps; [|done]. rewrite lookup_insert_ne; [done|]. intros ->.
    specialize (Hstale e He). lia.
Qed.

Lemma serve_fresh tok e later w :
  token_cache w !! tok = Some e ->
  (forall i, (clock_reads w <= i < clock_reads w + 2 * length later)%nat ->
             clock env i < e) ->
  forall i r, later !! i = Some r -> presents r tok ->
              (serve env later w).1 !! i = Some (Ok true, 0%nat).
Proof.
  revert w. induction later as [|r0 later IH]; intros w He Hwin i r Hi Hp.
  - by rewrite lookup_nil in Hi.
  - cbn [serve].
    pose proof (verify_token_split_reads r0 w) as Hreads.
    pose proof (verify_token_split_keeps_fresh r0 w tok e He) as Hkeep.
    destruct i as [|i].
    + injection Hi as ->.
      rewrite (fresh_run env _ _ _ _ Hp He) by (apply Hwin; cbn; lia).
      cbn [trace]. rewrite binds_snoc_regex, Nat.sub_diag.
      by destruct (serve env later _) as [xs w2].
    + destruct (verify_token_split env r0 w) as [x w1] eqn:Hrun.
      cbn [snd] in *.
      specialize (IH w1).
      destruct (serve env later w1) as [xs w2] eqn:Hrest. cbn in *.
      apply (IH (Hkeep ltac:(apply Hwin; lia)
                       ltac:(apply Z.lt_le_incl, Hwin; lia))
                ltac:(intros j Hj; apply Hwin; lia) i r Hi Hp).
Qed.

Lemma serve_all_fresh tok e later w :
  token_cache w !! tok = Some e ->
  (forall i, (clock_reads w <= i < clock_reads w + 2 * length later)%nat ->
             clock env i < e) ->
  (forall r, r ∈ later -> presents r tok) ->
  binds (trace (serve env later w).2) = binds (trace w).
Proof.
  revert w. induction later as [|r0 later IH]; intros w He Hwin Hall; [done|].
  cbn [serve].
  assert (presents r0 tok) as Hp by (apply Hall; by left).
  rewrite (fresh_run env _ _ _ _ Hp He) by (apply Hwin; cbn; lia).
  specialize (IH (mkWorld (token_cache w) (S (clock_reads w)) (trace w ++ [EvRegex tok]))).
  destruct (serve env later _) as [xs w2]. cbn [snd] in *.
  rewrite IH; cbn [token_cache clock_reads trace];
    [apply binds_snoc_regex|done|intros j Hj; apply Hwin; cbn; lia|].
  intros r Hr. apply Hall. by right.
Qed.

End Traces.

(** ** The cache only holds keys that passed the syntax checks *)

Section Invariant.

Context (env : Env).

Lemma verify_token_split_keys req w :
  cache_keys_accepted w -> cache_keys_accepted (verify_token_split env req w).2.
Proof.
  intros Hinv.
  destruct (bearer_token req) as [tok|] eqn:Htok.
  2:{ by rewrite (bearer_token_none env _ _ Htok). }
  rewrite (bearer_token_some env _ _ _ Htok).
  destruct (256 <? String.length tok)%nat eqn:Hlen; [done|].
  destruct (TOKEN_PATTERN_match tok) eqn:Hm; [|done].
  assert (accepted_key tok) as Hacc.
  { split; [|done]. apply Nat.ltb_ge in Hlen. lia. }
  assert (presents req tok) as Hp by (by destruct Hacc).
  rewrite <- (presents_run env _ _ _ Hp).
  assert (forall k v, is_Some (swept (clock env (S (clock_reads w)))
                        (<[tok:=v]> (token_cache w)) !! k) -> accepted_key k) as Hins.
  { intros k v [x Hx]. apply swept_lookup in Hx.
    destruct (decide (k = tok)) as [->|Hne]; [done|].
    rewrite lookup_insert_ne in Hx by done. apply Hinv. eauto. }
  assert (forall k, is_Some (delete tok (token_cache w) !! k) -> accepted_key k) as Hdel.
  { intros k [x Hx]. apply lookup_delete_Some in Hx as [_ Hx]. apply Hinv. eauto. }
  destruct (token_cache w !! tok) as [e|] eqn:He.
  - destruct (decide (clock env (clock_reads w) < e)) as [Hlt|Hge].
    + by rewrite (fresh_run env _ _ _ _ Hp He Hlt).
    + destruct (miss_run env req tok w Hp) as (u & p & Hs & Hrun).
      { intros e' He'. rewrite He in He'. injection He' as <-. lia. }
      cbv zeta in Hrun. rewrite Hrun.
      destruct (bind_returns (directory env (binds (trace w)) (user_dn_of env u) p));
        intros k; cbn [snd token_cache]; eauto.
  - destruct (miss_run env req tok w Hp) as (u & p & Hs & Hrun).
    { intros e' He'. congruence. }
    cbv zeta in Hrun. rewrite Hrun.
    destruct (bind_returns (directory env (binds (trace w)) (user_dn_of env u) p));
      intros k; cbn [snd token_cache]; eauto.
Qed.

Lemma app_keys req w :
  cache_keys_accepted w -> cache_keys_accepted (app env req w).2.
Proof.
  intros Hinv. unfold app. destruct (is_preflight req); [done|].
  destruct (is_docs_request req); [done|].
  destruct (match_route (path req)) as [p|]; [|done].
  destruct (bool_decide (method req ∈ route_methods)); [|done].
  pose proof (verify_token_split_keys req w Hinv) as Hv.
  unfold bind. destruct (verify_token_split env req w) as [[a|e] w1]; [|done].
  unfold proxy_ollama, bind, log. cbn [token_cache clock_reads trace].
  by destruct (backend env (forward_request p req)).
Qed.

End Invariant.

(** ** The cache only holds credentials *)

Lemma all_app_last f s c :
  PyStr.all f (s +:+ String c EmptyString) = PyStr.all f s && f c.
Proof.
  induction s as [|a s IH]; unfold String.app in *; simpl.
  - by rewrite andb_true_r.
  - by rewrite IH, andb_assoc.
Qed.

Lemma saslprep_prohibited_line_feed p :
  saslprep_prohibited (p +:+ String PyStr.LF EmptyString) = true.
Proof.
  unfold saslprep_prohibited. rewrite all_app_last. cbn. by rewrite andb_false_r.
Qed.

(** The password of a token that passed [TOKEN_PATTERN] and is not a
    credential ends in a line feed. *)
Lemma match_password tok u p :
  TOKEN_PATTERN_match tok = true ->
  PyStr.split1 PyStr.COLON tok = [u; p] ->
  is_credential tok = true \/ saslprep_prohibited p = true.
Proof.
  intros [H|(c & -> & H)]%TOKEN_PATTERN_match_inv Hs; [by left|]. right.
  apply is_credential_elim in H as (u' & p' & -> & _ & _ & Au & _).
  rewrite app_cons_assoc, split1_app_sep in Hs
    by (eapply all_no_mem; eauto using token_char_colon).
  injection Hs as <- <-. apply saslprep_prohibited_line_feed.
Qed.

Section Credentials.

Context (env : Env).
Context (Hldap3 : ldap3_directory env).

Lemma clean_expired_cache_credentials w :
  cache_keys_credentials w -> cache_keys_credentials (clean_expired_cache env w).2.
Proof.
  intros Hinv k [v Hk]. rewrite clean_expired_cache_run in Hk.
  cbn [snd token_cache] in Hk. apply swept_lookup in Hk. apply Hinv. eauto.
Qed.

Lemma verify_token_split_credentials req w :
  cache_keys_credentials w -> cache_keys_credentials (verify_token_split env req w).2.
Proof.
  intros Hinv.
  destruct (bearer_token req) as [tok|] eqn:Htok.
  2:{ by rewrite (bearer_token_none env _ _ Htok). }
  rewrite (bearer_token_some env _ _ _ Htok).
  destruct (256 <? String.length tok)%nat eqn:Hlen; [done|].
  destruct (TOKEN_PATTERN_match tok) eqn:Hm; [|done].
  assert (presents req tok) as Hp.
  { split; [done|]. split; [|done]. apply Nat.ltb_ge in Hlen. lia. }
  rewrite <- (presents_run env _ _ _ Hp).
  assert (forall k, is_Some (delete tok (token_cache w) !! k) -> credential_key k) as Hdel.
  { intros k [x Hx]. apply lookup_delete_Some in Hx as [_ Hx]. apply Hinv. eauto. }
  assert (clock env (clock_reads w) < default (clock env (clock_reads w)) (token_cache w !! tok)
          \/ forall e, token_cache w !! tok = Some e -> e <= clock env (clock_reads w))
    as [Hlt|Hstale].
  { destruct (token_cache w !! tok) as [e|]; cbn; [|by right].
    destruct (decide (clock env (clock_reads w) < e)); [by left|].
    right. intros e' [= <-]. lia. }
  - destruct (token_cache w !! tok) as [e|] eqn:He; cbn in Hlt; [|lia].
    by rewrite (fresh_run env _ _ _ _ Hp He Hlt).
  - destruct (miss_run env req tok w Hp Hstale) as (u & p & Hs & Hrun).
    cbv zeta in Hrun. rewrite Hrun.
    destruct (bind_returns (directory env (binds (trace w)) (user_dn_of env u) p))
      eqn:Ho; intros k; cbn [snd token_cache]; [|by apply Hdel].
    intros [x Hx]. apply swept_lookup in Hx.
    destruct (decide (k = tok)) as [->|Hne].
    + split; [apply Hp|].
      destruct (match_password tok u p Hm Hs) as [Hc|Hbad]; [done|].
      rewrite (Hldap3 _ _ _ Hbad) in Ho. discriminate.
    + rewrite lookup_insert_ne in Hx by done. apply Hinv. eauto.
Qed.

Lemma app_credentials req w :
  cache_keys_credentials w -> cache_keys_credentials (app env req w).2.
Proof.
  intros Hinv. unfold app. destruct (is_preflight req); [done|].
  destruct (is_docs_request req); [done|].
  destruct (match_route (path req)) as [p|]; [|done].
  destruct (bool_decide (method req ∈ route_methods)); [|done].
  pose proof (verify_token_split_credentials req w Hinv) as Hv.
  unfold bind. destruct (verify_token_split env req w) as [[a|e] w1]; [|done].
  unfold proxy_ollama, bind, log. cbn [token_cache clock_reads trace].
  by destruct (backend env (forward_request p req)).
Qed.

Lemma handle_credentials requests w :
  cache_keys_credentials w -> cache_keys_credentials (handle env requests w).
Proof.
  revert w. induction requests as [|r rs IH]; intros w Hw; [done|].
  cbn [handle]. by apply IH, app_credentials.
Qed.

End Credentials.

(** ** The route *)






(** A key without a line feed that passed the checks is a credential in
    the strict sense. *)
Lemma accepted_key_credential k :
  accepted_key k -> PyStr.mem PyStr.LF k = false ->
  (String.length k <= 256)%nat /\ is_credential k = true.
Proof. intros [Hlen Hm] Hlf. split; [done|]. by apply match_no_lf. Qed.

(** ** Forwarding *)


Section Forwarding.

Context (env : Env).


(** What a call of the verifier does: it calls [unbind()] exactly when
    [bind()] returned, and then no socket is left; when [bind()] raised
    the socket is as ldap3 left it. *)
Lemma verify_ldap_dynamic_sockets u p w :
  let o := directory env (binds (trace w)) (user_dn_of env u) p in
  exists new,
    verify_ldap_dynamic env u p w
    = (Ok (bind_returns o),
       mkWorld (token_cache w) (clock_reads w) (trace w ++ new))
    /\ binds new = 1%nat
    /\ (EvLdapUnbind (user_dn_of env u) ∈ new <-> bind_returns o = true)
    /\ open_sockets new = (if o is BindRaised then 1 else 0)%nat.
Proof.
  cbv zeta. rewrite verify_ldap_dynamic_run. eexists. split; [reflexivity|].
  destruct (directory env (binds (trace w)) (user_dn_of env u) p);
    (split; [reflexivity|]); (split; [|reflexivity]);
    cbn [bind_returns bind_result bind_events app];
    (split; intros H; [|first [discriminate H | present_in_list]]);
    first [reflexivity | absent_from_list H].
Qed.

End Forwarding.

Lemma presents_alice : presents req_alice alice_token.
Proof.
  split; [vm_compute; reflexivity|].
  split; [apply Nat.leb_le; vm_compute; reflexivity|vm_compute; reflexivity].
Defined.


(** * The claims *)

(** ** Credential Validator *)

Section Validator.

Context (env : Env).

(** C8, amended. When the token the handler reads off a [Bearer ]
    header, [auth_header.split(" ")[1]] (the text between the first and
    the second space), has more than 256 characters, the request is
    refused with [API_Key_too_long] (status 400), whatever its other
    characters are, and the world is left as it was: no [EvRegex] is
    recorded, the pattern is not evaluated. For a request that reaches
    the route the application answers with the same error. *)
Theorem too_long_denied_before_match req tok w :
  bearer_token req = Some tok ->
  (256 < String.length tok)%nat ->
  verify_token_split env req w = (Raise API_Key_too_long, w)
  /\ status_code API_Key_too_long = 400
  /\ (forall p, routed req p -> app env req w = (Raise API_Key_too_long, w)).
Proof.
  intros Htok Hlen.
  assert (verify_token_split env req w = (Raise API_Key_too_long, w)) as Hv.
  { rewrite (bearer_token_some env _ _ _ Htok).
    apply Nat.ltb_lt in Hlen. rewrite Hlen. reflexivity. }
  split; [exact Hv|]. split; [reflexivity|].
  intros p Hr. by apply (app_denied env req p).
Qed.

(** C2, amended. When the token the handler reads off a [Bearer ]
    header (the text between the first and the second space) has no
    line feed and is not one [:] between two non-empty runs of
    [[A-Za-z0-9_-]], the request is refused with status 400, the events
    of the run contain no bind and the cache is unchanged. *)
Theorem malformed_token_denied req tok w :
  bearer_token req = Some tok ->
  is_credential tok = false ->
  PyStr.mem PyStr.LF tok = false ->
  exists e w' new,
    verify_token_split env req w = (Raise e, w')
    /\ status_code e = 400
    /\ trace w' = trace w ++ new /\ binds new = 0%nat
    /\ token_cache w' = token_cache w.
Proof.
  intros Htok Hcred Hlf.
  rewrite (bearer_token_some env _ _ _ Htok).
  destruct (256 <? String.length tok)%nat.
  - exists API_Key_too_long, w, []. rewrite app_nil_r. auto.
  - destruct (TOKEN_PATTERN_match tok) eqn:Hm.
    + apply match_no_lf in Hm; [congruence|done].
    + eexists Invalid_API_Key_Format, _, [EvRegex tok]. repeat split; reflexivity.
Qed.

End Validator.

Lemma too_long_denied_before_match_witness :
  bearer_token req_long = Some long_token
  /\ (256 < String.length long_token)%nat
  /\ verify_token_split env_alice req_long w_init = (Raise API_Key_too_long, w_init).
Proof.
  assert (H1 : bearer_token req_long = Some long_token) by (vm_compute; reflexivity).
  assert (H2 : (256 < String.length long_token)%nat)
    by (apply Nat.ltb_lt; vm_compute; reflexivity).
  split; [exact H1|]. split; [exact H2|].
  exact (proj1 (too_long_denied_before_match env_alice req_long long_token w_init H1 H2)).
Defined.

Lemma malformed_token_denied_witness :
  bearer_token req_malformed = Some "alice"
  /\ is_credential "alice" = false
  /\ PyStr.mem PyStr.LF "alice" = false
  /\ exists e w' new,
       verify_token_split env_alice req_malformed w_init = (Raise e, w')
       /\ status_code e = 400
       /\ trace w' = trace w_init ++ new /\ binds new = 0%nat
       /\ token_cache w' = token_cache w_init.
Proof.
  assert (H1 : bearer_token req_malformed = Some "alice") by (vm_compute; reflexivity).
  assert (H2 : is_credential "alice" = false) by (vm_compute; reflexivity).
  assert (H3 : PyStr.mem PyStr.LF "alice" = false) by (vm_compute; reflexivity).
  split; [exact H1|]. split; [exact H2|]. split; [exact H3|].
  exact (malformed_token_denied env_alice req_malformed "alice" w_init H1 H2 H3).
Defined.

(** C2 as stated fails: the string after [Bearer ] in
    [Bearer alice:Secr3t-1 x] is [alice:Secr3t-1 x], which is not a
    credential, yet the handler reads [alice:Secr3t-1], asks the
    directory and lets the request in. *)
Lemma malformed_denied_counterexample : ~ malformed_denied_as_stated.
Proof.
  intros H.
  destruct (H env_alice (request_of "GET" "/api/tags" "" "Bearer alice:Secr3t-1 x")
              w_init "Bearer alice:Secr3t-1 x" "alice:Secr3t-1 x"
              eq_refl eq_refl eq_refl) as (e & w' & Hrun & _).
  vm_compute in Hrun. discriminate.
Qed.

(** C8 as stated fails: the string after [Bearer ] in the header of
    [req_long_tail] has 315 characters, yet the handler reads the 14
    characters before the space and lets the request in. *)
Lemma too_long_denied_counterexample : ~ too_long_denied_as_stated.
Proof.
  intros H.
  specialize (H env_alice req_long_tail w_init
                ("Bearer alice:Secr3t-1 " +:+ long_token)
                ("alice:Secr3t-1 " +:+ long_token) eq_refl eq_refl).
  assert (256 < String.length ("alice:Secr3t-1 " +:+ long_token))%nat as Hlen
    by (apply Nat.ltb_lt; vm_compute; reflexivity).
  specialize (H Hlen). vm_compute in H. discriminate.
Qed.

(** C10. With a directory reached through ldap3, whose bind raises on a
    password that holds a control character, every operation on the
    cache keeps the invariant that each key has at most 256 characters
    and is one [:] between two non-empty runs of [[A-Za-z0-9_-]]: a
    call of [verify_token_split], a call of [clean_expired_cache], a
    request through the application; and the invariant holds in every
    state reached from the empty cache of line 29. The one token that
    [TOKEN_PATTERN] accepts without its being such a string ends in a
    line feed; its bind raises and the token is not stored. *)
Theorem cache_keys_are_credentials env req w :
  ldap3_directory env ->
  cache_keys_credentials w ->
  cache_keys_credentials (verify_token_split env req w).2
  /\ cache_keys_credentials (clean_expired_cache env w).2
  /\ cache_keys_credentials (app env req w).2
  /\ (forall requests n tr,
        cache_keys_credentials (handle env requests (mkWorld ∅ n tr))).
Proof.
  intros Hldap3 Hinv.
  split; [by apply verify_token_split_credentials|].
  split; [by apply clean_expired_cache_credentials|].
  split; [by apply app_credentials|].
  intros requests n tr. apply handle_credentials; [done|].
  intros k [v Hk]. cbn [token_cache] in Hk. by rewrite lookup_empty in Hk.
Qed.

Lemma ldap3_directory_alice : ldap3_directory env_alice.
Proof.
  intros n dn pw H. cbn [directory env_alice]. unfold directory_alice.
  rewrite H. reflexivity.
Defined.

Lemma cache_keys_credentials_alice : cache_keys_credentials w_alice.
Proof.
  intros k [v Hk]. unfold w_alice in Hk.
  assert (token_cache (verify_token_split env_alice req_alice w_init).2
          = {[ alice_token := stub_clock 0 + 1800 ]}) as Hc
    by (vm_compute; reflexivity).
  rewrite Hc in Hk. apply lookup_singleton_Some in Hk as [<- _].
  split; [apply Nat.leb_le; vm_compute; reflexivity|vm_compute; reflexivity].
Defined.

Lemma cache_keys_are_credentials_witness :
  ldap3_directory env_alice
  /\ cache_keys_credentials w_alice
  /\ cache_keys_credentials (app env_alice req_line_feed w_alice).2.
Proof.
  split; [exact ldap3_directory_alice|].
  split; [exact cache_keys_credentials_alice|].
  exact (proj1 (proj2 (proj2 (cache_keys_are_credentials env_alice req_line_feed w_alice
                                ldap3_directory_alice cache_keys_credentials_alice)))).
Defined.

(** ** Directory Verifier *)

(** C3. When [bind()] raises after it has opened the socket, on an
    error for which ldap3 leaves the socket as it is,
    [verify_ldap_dynamic] returns [False] through its [except] clause
    without a call of [unbind()]: one socket is still open when it
    returns. On the two paths where [bind()] returns, the bind accepted
    and the bind rejected, [unbind()] is called and no socket is left. *)
Lemma raised_bind_leaves_socket_open :
  let dn := "cn=alice,ou=users,dc=ldap,dc=goauthentik,dc=io" in
  verify_ldap_dynamic env_failing "alice" "Secr3t-1" w_init
  = (Ok false,
     mkWorld ∅ 0 [EvLdapOpen dn; EvLdapBind dn "Secr3t-1" BindRaised])
  /\ open_sockets [EvLdapOpen dn; EvLdapBind dn "Secr3t-1" BindRaised] = 1%nat
  /\ open_sockets
       (trace (verify_ldap_dynamic env_alice "alice" "Secr3t-1" w_init).2) = 0%nat
  /\ open_sockets
       (trace (verify_ldap_dynamic env_alice "bob" "wrong" w_init).2) = 0%nat.
Proof. repeat split; vm_compute; reflexivity. Qed.

(** ** Authorization Cache *)

Section Cache.

Context (env : Env).

(** C5. For a request whose token [tok] passes the syntax checks, at
    the time [t] the handler reads: with an entry of expiry above [t]
    the request is authorized, the cache is unchanged and no bind is
    made; with an entry of expiry at most [t] the entry is deleted,
    one bind is made, and result and cache are those of the same
    request on the cache without the entry; with no entry one bind is
    made. *)
Theorem cache_lookup_cases req tok w :
  presents req tok ->
  let t := clock env (clock_reads w) in
  let r := (verify_token_split env req w).1 in
  let w' := (verify_token_split env req w).2 in
  let absent := mkWorld (delete tok (token_cache w)) (clock_reads w) (trace w) in
  (forall expiry, token_cache w !! tok = Some expiry -> t < expiry ->
     r = Ok true /\ token_cache w' = token_cache w
     /\ binds (trace w') = binds (trace w))
  /\ (forall expiry, token_cache w !! tok = Some expiry -> expiry <= t ->
        binds (trace w') = S (binds (trace w))
        /\ EvCacheDel tok ∈ trace w'
        /\ r = (verify_token_split env req absent).1
        /\ token_cache w' = token_cache (verify_token_split env req absent).2)
  /\ (token_cache w !! tok = None ->
        binds (trace w') = S (binds (trace w))).
Proof.
  intros Hp. cbv zeta. split; [|split].
  - intros e He Hlt. rewrite (fresh_run env _ _ _ _ Hp He Hlt). cbn.
    split; [done|]. split; [done|]. apply binds_snoc_regex.
  - intros e He Hle.
    destruct (miss_run env req tok w Hp) as (u & p & Hs & Hrun).
    { intros e' He'. rewrite He in He'. by injection He' as <-. }
    destruct (miss_run env req tok
                (mkWorld (delete tok (token_cache w)) (clock_reads w) (trace w)) Hp)
      as (u' & p' & Hs' & Hrun').
    { cbn. intros e'. by rewrite lookup_delete_eq. }
    rewrite Hs in Hs'. injection Hs' as <- <-.
    cbv zeta in Hrun, Hrun'. cbn [token_cache clock_reads trace] in Hrun'.
    rewrite Hrun, Hrun'. rewrite insert_delete_eq.
    assert (EvCacheDel tok ∈ lookup_events tok (token_cache w)) as Hdel.
    { unfold lookup_events. rewrite He. by left. }
    destruct (directory env (binds (trace w)) (user_dn_of env u) p) eqn:Ho;
      cbn [bind_returns bind_result fst snd trace token_cache];
      (split; [rewrite !binds_app; cbn; unfold lookup_events; rewrite He; cbn;
               rewrite ?binds_sweep_events; lia|]);
      (split; [rewrite !elem_of_app; auto 10|]); split; try reflexivity.
    all: by rewrite delete_delete_eq.
  - intros Hnone.
    destruct (miss_run env req tok w Hp) as (u & p & Hs & Hrun).
    { intros e' He'. congruence. }
    cbv zeta in Hrun. rewrite Hrun.
    destruct (directory env (binds (trace w)) (user_dn_of env u) p) eqn:Ho;
      cbn [bind_returns bind_result fst snd trace token_cache];
      rewrite !binds_app; cbn; unfold lookup_events; rewrite Hnone; cbn;
      rewrite ?binds_sweep_events; lia.
Qed.

(** C7. When the verifier returns [False] for the credential of a
    request that the cache does not answer, the request is refused with
    status 403, the cache holds no entry for that credential and every
    other entry is as before; a request that follows with a credential
    the directory accepts is authorized. *)
Theorem rejected_not_cached req tok u p w :
  presents req tok ->
  PyStr.split1 PyStr.COLON tok = [u; p] ->
  (forall expiry, token_cache w !! tok = Some expiry ->
                  expiry <= clock env (clock_reads w)) ->
  (verify_ldap_dynamic env u p w).1 = Ok false ->
  exists w',
    verify_token_split env req w = (Raise Invalid_Username_or_Password, w')
    /\ status_code Invalid_Username_or_Password = 403
    /\ token_cache w' !! tok = None
    /\ (forall k, k <> tok -> token_cache w' !! k = token_cache w !! k)
    /\ (forall req2 tok2 u2 p2,
          presents req2 tok2 ->
          PyStr.split1 PyStr.COLON tok2 = [u2; p2] ->
          directory env (binds (trace w')) (user_dn_of env u2) p2 = BindAccepted ->
          (verify_token_split env req2 w').1 = Ok true).
Proof.
  intros Hp Hs Hstale Hrej. apply verify_ldap_dynamic_false in Hrej.
  destruct (miss_run env req tok w Hp Hstale) as (u' & p' & Hs' & Hrun).
  rewrite Hs in Hs'. injection Hs' as <- <-. cbv zeta in Hrun.
  eexists (mkWorld (delete tok (token_cache w)) _ _). split.
  { rewrite Hrun, Hrej. reflexivity. }
  cbn [token_cache]. split; [reflexivity|]. split; [apply lookup_delete_eq|].
  split; [intros k Hk; by apply lookup_delete_ne|].
  intros req2 tok2 u2 p2 Hp2 Hs2 Hacc.
  apply (answered_credential_succeeds env req2 tok2 u2 p2); [done..|].
  cbn [trace] in Hacc |- *. by rewrite Hacc.
Qed.

(** C6, amended. [clean_expired_cache], called at time [t]: with at
    most 1000 entries it leaves cache and trace alone; with more than
    1000 it records one sweep and leaves exactly the entries whose
    expiry is not below [t], the deleted keys being those with an
    expiry strictly below [t]: an entry expiring at [t] itself stays,
    though a lookup at [t] takes it for expired. In the events of any
    request through the application, a sweep only comes right after a
    cache insert. *)
Theorem sweep_only_after_insert_above_threshold req w :
  let t := clock env (clock_reads w) in
  ((size (token_cache w) <= 1000)%nat ->
     clean_expired_cache env w
     = (Ok tt, mkWorld (token_cache w) (S (clock_reads w)) (trace w)))
  /\ ((1000 < size (token_cache w))%nat ->
      exists cache' keys,
        clean_expired_cache env w
        = (Ok tt, mkWorld cache' (S (clock_reads w)) (trace w ++ [EvSweep t keys]))
        /\ (forall k v, cache' !! k = Some v <-> token_cache w !! k = Some v /\ t <= v)
        /\ (forall k, k ∈ keys <-> exists v, token_cache w !! k = Some v /\ v < t))
  /\ (exists new,
        trace (app env req w).2 = trace w ++ new
        /\ sweeps_follow_inserts false new = true).
Proof.
  cbv zeta. split; [|split].
  - intros Hle. rewrite clean_expired_cache_run. unfold swept, sweep_events.
    assert ((1000 <? size (token_cache w))%nat = false) as -> by (apply Nat.ltb_ge; lia).
    by rewrite app_nil_r.
  - intros Hgt. rewrite clean_expired_cache_run. unfold swept, sweep_events.
    apply Nat.ltb_lt in Hgt. rewrite Hgt.
    eexists _, _. split; [reflexivity|]. split.
    + intros k v. by rewrite map_lookup_filter_Some.
    + intros k. apply elem_of_keys_expired.
  - apply app_events.
Qed.

(** C4. When the first request with a credential is authorized by one
    bind, and every later reading of the clock made while the requests
    [later] are served is below the expiry [current_time + CACHE_TTL]
    that the first request stored, every request of [later] with that
    credential is authorized without a bind, whatever other requests
    are served in between; when all of [later] carry the credential,
    the directory was asked once over the whole run. *)
Theorem repeat_within_ttl req tok w0 w1 later :
  presents req tok ->
  verify_token_split env req w0 = (Ok true, w1) ->
  binds (trace w1) = S (binds (trace w0)) ->
  (forall i, (clock_reads w0 < i < clock_reads w0 + 2 + 2 * length later)%nat ->
             clock env i < clock env (clock_reads w0) + CACHE_TTL env) ->
  (forall i r, later !! i = Some r -> presents r tok ->
               (serve env later w1).1 !! i = Some (Ok true, 0%nat))
  /\ ((forall r, r ∈ later -> presents r tok) ->
      binds (trace (serve env later w1).2) = S (binds (trace w0))).
Proof.
  intros Hp Hfirst Hb Hwin.
  assert (forall e, token_cache w0 !! tok = Some e -> e <= clock env (clock_reads w0))
    as Hstale.
  { intros e He. destruct (decide (clock env (clock_reads w0) < e)) as [Hlt|]; [|lia].
    rewrite (fresh_run env _ _ _ _ Hp He Hlt) in Hfirst. injection Hfirst as <-.
    cbn [trace] in Hb. rewrite binds_snoc_regex in Hb. lia. }
  destruct (miss_run env req tok w0 Hp Hstale) as (u & p & Hs & Hrun).
  cbv zeta in Hrun. rewrite Hfirst in Hrun.
  destruct (bind_returns (directory env (binds (trace w0)) (user_dn_of env u) p));
    [|discriminate].
  assert (token_cache w1 !! tok = Some (clock env (clock_reads w0) + CACHE_TTL env)
          /\ clock_reads w1 = S (S (clock_reads w0))) as [Hentry Hreads].
  { injection Hrun as ->. cbn [token_cache clock_reads]. split; [|reflexivity].
    apply swept_keeps; [apply lookup_insert_eq|].
    assert (clock env (S (clock_reads w0)) < clock env (clock_reads w0) + CACHE_TTL env)
      by (apply Hwin; lia). lia. }
  clear Hrun.
  assert (forall i, (clock_reads w1 <= i < clock_reads w1 + 2 * length later)%nat ->
                    clock env i < clock env (clock_reads w0) + CACHE_TTL env) as Hwin1.
  { rewrite Hreads. intros i Hi. apply Hwin. lia. }
  split.
  - exact (serve_fresh env tok _ later w1 Hentry Hwin1).
  - intros Hall. rewrite <- Hb.
    exact (serve_all_fresh env tok _ later w1 Hentry Hwin1 Hall).
Qed.

End Cache.

Lemma cache_lookup_cases_witness :
  presents req_alice alice_token
  /\ token_cache w_cached !! alice_token = Some (stub_clock 0 + 1800)
  /\ clock env_alice (clock_reads w_cached) < stub_clock 0 + 1800
  /\ (verify_token_split env_alice req_alice w_cached).1 = Ok true
  /\ token_cache (verify_token_split env_alice req_alice w_cached).2
     = token_cache w_cached
  /\ binds (trace (verify_token_split env_alice req_alice w_cached).2)
     = binds (trace w_cached).
Proof.
  assert (He : token_cache w_cached !! alice_token = Some (stub_clock 0 + 1800))
    by (vm_compute; reflexivity).
  assert (Hlt : clock env_alice (clock_reads w_cached) < stub_clock 0 + 1800)
    by (vm_compute; reflexivity).
  split; [exact presents_alice|]. split; [exact He|]. split; [exact Hlt|].
  exact (proj1 (cache_lookup_cases env_alice req_alice alice_token w_cached
                  presents_alice) _ He Hlt).
Defined.

Lemma rejected_not_cached_witness :
  presents req_bob "bob:wrong"
  /\ PyStr.split1 PyStr.COLON "bob:wrong" = ["bob"; "wrong"]
  /\ (forall expiry, token_cache w_init !! "bob:wrong" = Some expiry ->
                     expiry <= clock env_unreachable (clock_reads w_init))
  /\ (verify_ldap_dynamic env_unreachable "bob" "wrong" w_init).1 = Ok false
  /\ exists w',
       verify_token_split env_unreachable req_bob w_init
       = (Raise Invalid_Username_or_Password, w')
       /\ token_cache w' !! "bob:wrong" = None.
Proof.
  assert (Hp : presents req_bob "bob:wrong").
  { split; [vm_compute; reflexivity|].
    split; [apply Nat.leb_le; vm_compute; reflexivity|vm_compute; reflexivity]. }
  assert (Hs : PyStr.split1 PyStr.COLON "bob:wrong" = ["bob"; "wrong"])
    by (vm_compute; reflexivity).
  assert (Hstale : forall expiry, token_cache w_init !! "bob:wrong" = Some expiry ->
                     expiry <= clock env_unreachable (clock_reads w_init)).
  { intros expiry H. vm_compute in H. discriminate. }
  assert (Hrej : (verify_ldap_dynamic env_unreachable "bob" "wrong" w_init).1 = Ok false)
    by (vm_compute; reflexivity).
  split; [exact Hp|]. split; [exact Hs|]. split; [exact Hstale|]. split; [exact Hrej|].
  destruct (rejected_not_cached env_unreachable req_bob "bob:wrong" "bob" "wrong" w_init
              Hp Hs Hstale Hrej) as (w' & Hrun & _ & Hnone & _).
  exists w'. split; [exact Hrun|exact Hnone].
Defined.

Lemma sweep_only_after_insert_above_threshold_witness :
  (size (token_cache w_init) <= 1000)%nat
  /\ clean_expired_cache env_alice w_init
     = (Ok tt, mkWorld (token_cache w_init) (S (clock_reads w_init)) (trace w_init))
  /\ (1000 < size (token_cache w_bulk))%nat
  /\ exists cache' keys,
       clean_expired_cache env_alice w_bulk
       = (Ok tt, mkWorld cache' (S (clock_reads w_bulk))
                   (trace w_bulk ++ [EvSweep (clock env_alice (clock_reads w_bulk)) keys]))
       /\ (forall k v, cache' !! k = Some v <->
                       token_cache w_bulk !! k = Some v
                       /\ clock env_alice (clock_reads w_bulk) <= v)
       /\ (forall k, k ∈ keys <->
                     exists v, token_cache w_bulk !! k = Some v
                               /\ v < clock env_alice (clock_reads w_bulk)).
Proof.
  assert (Hle : (size (token_cache w_init) <= 1000)%nat)
    by (apply Nat.leb_le; vm_compute; reflexivity).
  assert (Hgt : (1000 < size (token_cache w_bulk))%nat)
    by (apply Nat.ltb_lt; vm_compute; reflexivity).
  split; [exact Hle|].
  split; [exact (proj1 (sweep_only_after_insert_above_threshold
                          env_alice req_alice w_init) Hle)|].
  split; [exact Hgt|].
  exact (proj1 (proj2 (sweep_only_after_insert_above_threshold
                         env_alice req_alice w_bulk)) Hgt).
Defined.

(** C6 as stated fails: at [stub_clock 0] the sweep of [bulk_cache]
    keeps the entry of [bulk_key 500], whose expiry is [stub_clock 0]
    and which has lapsed by then. *)
Lemma lapsed_entry_kept_counterexample : ~ sweep_removes_lapsed_as_stated.
Proof.
  intros H.
  assert (1000 < size (token_cache w_bulk))%nat as Hgt
    by (apply Nat.ltb_lt; vm_compute; reflexivity).
  assert (token_cache (clean_expired_cache env_alice w_bulk).2 !! bulk_key 500
          = Some (stub_clock 0)) as Hkept by (vm_compute; reflexivity).
  apply (H env_alice w_bulk (bulk_key 500) (stub_clock 0) Hgt) in Hkept as [_ Hlt].
  vm_compute in Hlt. discriminate.
Qed.

Lemma repeat_within_ttl_witness :
  presents req_alice alice_token
  /\ verify_token_split env_alice req_alice w_init = (Ok true, w_alice)
  /\ binds (trace w_alice) = S (binds (trace w_init))
  /\ (forall i, (clock_reads w_init < i
                 < clock_reads w_init + 2 + 2 * length [req_bob; req_alice])%nat ->
                clock env_alice i
                < clock env_alice (clock_reads w_init) + CACHE_TTL env_alice)
  /\ [req_bob; req_alice] !! 1%nat = Some req_alice
  /\ (serve env_alice [req_bob; req_alice] w_alice).1 !! 1%nat
     = Some (Ok true, 0%nat).
Proof.
  assert (Hfirst : verify_token_split env_alice req_alice w_init = (Ok true, w_alice))
    by (vm_compute; reflexivity).
  assert (Hb : binds (trace w_alice) = S (binds (trace w_init)))
    by (vm_compute; reflexivity).
  assert (Hwin : forall i, (clock_reads w_init < i
                            < clock_reads w_init + 2 + 2 * length [req_bob; req_alice])%nat ->
                   clock env_alice i
                   < clock env_alice (clock_reads w_init) + CACHE_TTL env_alice).
  { intros i Hi. simpl in *. unfold stub_clock. lia. }
  assert (Hi : [req_bob; req_alice] !! 1%nat = Some req_alice) by reflexivity.
  split; [exact presents_alice|]. split; [exact Hfirst|]. split; [exact Hb|].
  split; [exact Hwin|]. split; [exact Hi|].
  exact (proj1 (repeat_within_ttl env_alice req_alice alice_token w_init w_alice
                  [req_bob; req_alice] presents_alice Hfirst Hb Hwin)
           1%nat req_alice Hi presents_alice).
Defined.

(** ** Gateway Handler and Proxy Forwarder *)

Section Gateway.

Context (env : Env).



End Gateway.





(** * Further properties of the program *)

(** ** One request, step by step *)

Section Request.

Context (env : Env).

(** Everything a call of [verify_token_split] can do. *)
Lemma verify_token_split_step req w :
  let r := (verify_token_split env req w).1 in
  let w' := (verify_token_split env req w).2 in
  let t := clock env (clock_reads w) in
  exists new,
    trace w' = trace w ++ new
    /\ (forall out, EvSend out ∉ new)
    /\ ((token_cache w' = token_cache w
         /\ (clock_reads w <= clock_reads w' <= S (clock_reads w))%nat
         /\ binds new = 0%nat
         /\ (r = Ok true \/ r = Raise Missing_API_Key
             \/ r = Raise API_Key_too_long \/ r = Raise Invalid_API_Key_Format))
        \/ exists tok u p,
             presents req tok
             /\ PyStr.split1 PyStr.COLON tok = [u; p]
             /\ (forall e, token_cache w !! tok = Some e -> e <= t)
             /\ binds new = 1%nat
             /\ ((r = Raise Invalid_Username_or_Password
                  /\ token_cache w' = delete tok (token_cache w)
                  /\ clock_reads w' = S (clock_reads w)
                  /\ exists o, bind_returns o = false
                               /\ EvLdapBind (user_dn_of env u) p o ∈ new)
                 \/ (r = Ok true
                     /\ token_cache w'
                        = swept (clock env (S (clock_reads w)))
                            (<[tok := t + CACHE_TTL env]> (token_cache w))
                     /\ clock_reads w' = S (S (clock_reads w))
                     /\ exists o, bind_returns o = true
                                  /\ EvLdapBind (user_dn_of env u) p o ∈ new))).
Proof.
  cbv zeta.
  destruct (bearer_token req) as [tok|] eqn:Htok.
  2:{ rewrite (bearer_token_none env _ _ Htok). exists []. rewrite app_nil_r.
      split; [done|]. split; [intros out H; by apply elem_of_nil in H|].
      left. cbn. repeat split; auto. }
  rewrite (bearer_token_some env _ _ _ Htok).
  destruct (256 <? String.length tok)%nat eqn:Hlen.
  { exists []. rewrite app_nil_r.
    split; [done|]. split; [intros out H; by apply elem_of_nil in H|].
    left. cbn. repeat split; auto. }
  destruct (TOKEN_PATTERN_match tok) eqn:Hm.
  2:{ exists [EvRegex tok]. split; [done|].
      split; [intros out H; apply list_elem_of_singleton in H; discriminate|].
      left. cbn. repeat split; auto. }
  assert (presents req tok) as Hp.
  { split; [done|]. split; [|done]. apply Nat.ltb_ge in Hlen. lia. }
  rewrite <- (presents_run env _ _ _ Hp).
  assert (forall (c : gmap string Z) o dn p,
            EvLdapBind dn p o ∈ [EvRegex tok] ++ lookup_events tok c ++ bind_events o dn p)
    as Hin.
  { intros c o dn p. apply elem_of_app. right. apply elem_of_app. right.
    destruct o; present_in_list. }
  assert (forall (c : gmap string Z) o dn p out,
            EvSend out ∉ [EvRegex tok] ++ lookup_events tok c ++ bind_events o dn p)
    as Hns.
  { intros c o dn p out H. unfold lookup_events in H.
    destruct (c !! tok), o; absent_from_list H. }
  assert (forall (c : gmap string Z) o dn p,
            binds ([EvRegex tok] ++ lookup_events tok c ++ bind_events o dn p) = 1%nat)
    as Hone.
  { intros c o dn p. unfold lookup_events. destruct (c !! tok), o; reflexivity. }
  assert ((exists e, token_cache w !! tok = Some e /\ clock env (clock_reads w) < e)
          \/ ~ (exists e, token_cache w !! tok = Some e
                          /\ clock env (clock_reads w) < e)) as [(e & He & Hlt)|Hno].
  { destruct (token_cache w !! tok) as [e|]; [|right; intros (e & He & _); done].
    destruct (decide (clock env (clock_reads w) < e)); [left; eauto|].
    right. intros (e' & [= <-] & Hlt). done. }
  - rewrite (fresh_run env _ _ _ _ Hp He Hlt). exists [EvRegex tok]. split; [done|].
    split; [intros out H; apply list_elem_of_singleton in H; discriminate|].
    left. cbn. repeat split; auto.
  - assert (forall e, token_cache w !! tok = Some e -> e <= clock env (clock_reads w))
      as Hstale.
    { intros e He. destruct (decide (clock env (clock_reads w) < e)); [|lia].
      exfalso. apply Hno. eauto. }
    destruct (miss_run env req tok w Hp Hstale) as (u & p & Hs & Hrun).
    cbv zeta in Hrun. rewrite Hrun.
    destruct (bind_returns (directory env (binds (trace w)) (user_dn_of env u) p))
      eqn:Ho; cbn [fst snd trace token_cache clock_reads].
    + rewrite <- app_assoc. eexists. split; [reflexivity|]. split.
      { intros out H. apply elem_of_app in H as [H|H]; [by apply Hns in H|].
        unfold sweep_events in H.
        destruct (1000 <? size _)%nat; absent_from_list H. }
      right. exists tok, u, p. split; [exact Hp|]. split; [exact Hs|].
      split; [exact Hstale|]. split.
      { by rewrite binds_app, Hone, binds_app, binds_sweep_events. }
      right. split; [reflexivity|]. split; [reflexivity|]. split; [reflexivity|].
      eexists. split; [exact Ho|]. apply elem_of_app. left. apply Hin.
    + eexists. split; [reflexivity|]. split; [apply Hns|].
      right. exists tok, u, p. split; [exact Hp|]. split; [exact Hs|].
      split; [exact Hstale|]. split; [apply Hone|].
      left. split; [reflexivity|]. split; [reflexivity|]. split; [reflexivity|].
      eexists. split; [exact Ho|]. apply Hin.
Qed.

End Request.

(** ** The validator and the verifier *)

(** The token is the text between the first and the second space of the
    header: it holds no space, and the header is [Bearer ], the token,
    and then nothing or a space and the rest. *)
Theorem token_extraction h :
  PyStr.startswith "Bearer " h = true ->
  exists tok rest,
    PyStr.split PyStr.SPACE h !! 1%nat = Some tok
    /\ PyStr.mem PyStr.SPACE tok = false
    /\ h = "Bearer " +:+ tok +:+ rest
    /\ (rest = EmptyString \/ exists r, rest = String PyStr.SPACE r).
Proof.
  intros [r ->]%startswith_app.
  change ("Bearer " +:+ r) with ("Bearer" +:+ String PyStr.SPACE r).
  rewrite split_app_sep by reflexivity.
  pose proof (split_nonempty PyStr.SPACE r) as Hne.
  destruct (PyStr.split PyStr.SPACE r) as [|tok xs] eqn:E; [congruence|].
  apply split_head in E as [Hmem Hrest].
  destruct xs as [|x xs].
  - subst r. exists tok, EmptyString. split; [reflexivity|]. split; [done|].
    split; [|by left].
    replace (tok +:+ "") with tok; [reflexivity|].
    clear. induction tok as [|a tok IH]; unfold String.app in *; simpl; congruence.
  - destruct Hrest as (r' & -> & _). exists tok, (String PyStr.SPACE r').
    split; [reflexivity|]. split; [done|]. split; [reflexivity|]. right. eauto.
Qed.

Lemma token_extraction_witness :
  PyStr.startswith "Bearer " "Bearer alice:Secr3t-1 trailing words" = true
  /\ exists tok rest,
       PyStr.split PyStr.SPACE "Bearer alice:Secr3t-1 trailing words" !! 1%nat
       = Some tok
       /\ PyStr.mem PyStr.SPACE tok = false
       /\ "Bearer alice:Secr3t-1 trailing words" = "Bearer " +:+ tok +:+ rest
       /\ (rest = EmptyString \/ exists r, rest = String PyStr.SPACE r).
Proof.
  assert (H : PyStr.startswith "Bearer " "Bearer alice:Secr3t-1 trailing words" = true)
    by reflexivity.
  split; [exact H|].
  exact (token_extraction "Bearer alice:Secr3t-1 trailing words" H).
Defined.

Lemma filter_is_bind_sweep_events t c : List.filter is_bind (sweep_events t c) = [].
Proof. unfold sweep_events. by destruct (1000 <? size c)%nat. Qed.

Lemma filter_is_bind_lookup_events tok c :
  List.filter is_bind (lookup_events tok c) = [].
Proof. unfold lookup_events. by destruct (c !! tok). Qed.

Section Validator2.

Context (env : Env).

(** Without an [Authorization] header, or with one that does not start
    with [Bearer ] (the empty value, another scheme, [bearer] in lower
    case, [Bearer] with no space), the request is refused with status
    401 before anything else happens: the world is unchanged. *)
Theorem missing_key_denied req w :
  headers_get "Authorization" (headers req) = None
  \/ (exists h, headers_get "Authorization" (headers req) = Some h
                /\ PyStr.startswith "Bearer " h = false) ->
  verify_token_split env req w = (Raise Missing_API_Key, w)
  /\ status_code Missing_API_Key = 401
  /\ (forall p, routed req p -> app env req w = (Raise Missing_API_Key, w)).
Proof.
  intros H.
  assert (bearer_token req = None) as Hnone.
  { unfold bearer_token. destruct H as [->|(h & -> & ->)]; reflexivity. }
  pose proof (bearer_token_none env req w Hnone) as Hv.
  split; [exact Hv|]. split; [reflexivity|].
  intros p Hr. by apply (app_denied env req p).
Qed.

(** [verify_token_split] returns [True] or raises one of its four
    errors: it never returns [False], and neither the index [[1]] of
    line 66 nor the unpacking of line 82 can fail. *)
Theorem verify_token_split_outcomes req w :
  let r := (verify_token_split env req w).1 in
  r = Ok true
  \/ r = Raise Missing_API_Key
  \/ r = Raise API_Key_too_long
  \/ r = Raise Invalid_API_Key_Format
  \/ r = Raise Invalid_Username_or_Password.
Proof.
  destruct (verify_token_split_step env req w)
    as (new & _ & _ & [(_ & _ & _ & H)|(tok & u & p & _ & _ & _ & _ & H)]).
  - cbv zeta. tauto.
  - cbv zeta. destruct H as [(-> & _)|(-> & _)]; tauto.
Qed.

(** The decision and everything the handler does depend on the token
    alone: method, path, query, body and the other headers play no part. *)
Theorem authorization_depends_on_token_only req1 req2 w :
  bearer_token req1 = bearer_token req2 ->
  verify_token_split env req1 w = verify_token_split env req2 w.
Proof.
  intros Heq. destruct (bearer_token req1) as [tok|] eqn:H1.
  - symmetry in Heq.
    by rewrite (bearer_token_some env _ _ _ H1), (bearer_token_some env _ _ _ Heq).
  - symmetry in Heq.
    by rewrite (bearer_token_none env _ _ H1), (bearer_token_none env _ _ Heq).
Qed.

(** On a miss the directory is asked once, for the user and the password
    that the first [:] of the token separates. Both are non-empty, and
    the user, which goes into the distinguished name, consists of
    [[A-Za-z0-9_-]] only. The request is authorized exactly when
    [bind()] returns, the directory having accepted the bind or
    rejected it, and refused with status 403 exactly when [bind()]
    raises. *)
Theorem miss_asks_directory_once req tok w :
  presents req tok ->
  (forall e, token_cache w !! tok = Some e -> e <= clock env (clock_reads w)) ->
  exists u p new,
    let o := directory env (binds (trace w)) (user_dn_of env u) p in
    tok = u +:+ String PyStr.COLON p
    /\ PyStr.nonempty u = true /\ PyStr.nonempty p = true
    /\ PyStr.all token_char u = true
    /\ trace (verify_token_split env req w).2 = trace w ++ new
    /\ List.filter is_bind new = [EvLdapBind (user_dn_of env u) p o]
    /\ ((verify_token_split env req w).1 = Ok true
        <-> o = BindAccepted \/ o = BindRejected)
    /\ ((verify_token_split env req w).1 = Raise Invalid_Username_or_Password
        <-> o <> BindAccepted /\ o <> BindRejected).
Proof.
  intros Hp Hstale. pose proof Hp as (_ & _ & Hm).
  assert (exists u p, tok = u +:+ String PyStr.COLON p
                      /\ PyStr.nonempty u = true /\ PyStr.nonempty p = true
                      /\ PyStr.all token_char u = true)
    as (u & p & Htok & Hu & Hpn & Au).
  { apply TOKEN_PATTERN_match_inv in Hm as [H|(c & -> & H)];
      apply is_credential_elim in H as (u & p & -> & Hu & Hpn & Au & _).
    - exists u, p. auto.
    - exists u, (p +:+ String PyStr.LF EmptyString). rewrite app_cons_assoc.
      repeat split; try done. destruct p; [discriminate|reflexivity]. }
  destruct (miss_run env req tok w Hp Hstale) as (u' & p' & Hs & Hrun).
  assert (u' = u /\ p' = p) as [-> ->].
  { rewrite Htok, split1_app_sep in Hs
      by (eapply all_no_mem; eauto using token_char_colon).
    by injection Hs as <- <-. }
  cbv zeta in Hrun. cbv zeta. rewrite Hrun.
  exists u, p.
  destruct (directory env (binds (trace w)) (user_dn_of env u) p);
    cbn [bind_returns bind_result fst snd trace]; rewrite <- ?app_assoc; eexists;
    (split; [exact Htok|]); (split; [exact Hu|]); (split; [exact Hpn|]);
    (split; [exact Au|]); (split; [reflexivity|]);
    (split; [rewrite !List.filter_app, ?filter_is_bind_sweep_events,
               filter_is_bind_lookup_events; reflexivity|]);
    split; split; try discriminate; auto; try (by intros [|]); try (by intros []).
Qed.


(** A request makes at most one bind: the handler does not retry. *)
Theorem one_bind_per_request req w :
  (binds (trace w) <= binds (trace (app env req w).2) <= S (binds (trace w)))%nat.
Proof.
  unfold app. destruct (is_preflight req); [cbn; lia|].
  destruct (is_docs_request req); [cbn; lia|].
  destruct (match_route (path req)) as [param|]; [|cbn; lia].
  destruct (bool_decide (method req ∈ route_methods)); [|cbn; lia].
  destruct (verify_token_split_step env req w) as (new & Hnew & _ & H).
  assert (binds new <= 1)%nat as Hb.
  { destruct H as [(_ & _ & -> & _)|(tok & u & p & _ & _ & _ & -> & _)]; lia. }
  unfold bind. destruct (verify_token_split env req w) as [[a|e] w1]; cbn [snd] in *.
  - unfold proxy_ollama, bind, log. cbn [token_cache clock_reads trace].
    destruct (backend env (forward_request param req));
      unfold ret, raise; cbn [snd trace];
      rewrite Hnew, !binds_app; cbn; lia.
  - rewrite Hnew, binds_app. lia.
Qed.

End Validator2.

Lemma missing_key_denied_witness :
  (headers_get "Authorization" (headers req_lower) = None
   \/ exists h, headers_get "Authorization" (headers req_lower) = Some h
                /\ PyStr.startswith "Bearer " h = false)
  /\ verify_token_split env_alice req_lower w_init = (Raise Missing_API_Key, w_init).
Proof.
  assert (H : headers_get "Authorization" (headers req_lower) = None
              \/ exists h, headers_get "Authorization" (headers req_lower) = Some h
                           /\ PyStr.startswith "Bearer " h = false).
  { right. exists "bearer alice:Secr3t-1". split; vm_compute; reflexivity. }
  split; [exact H|].
  exact (proj1 (missing_key_denied env_alice req_lower w_init H)).
Defined.

Lemma authorization_depends_on_token_only_witness :
  bearer_token req_alice = bearer_token req_alice_post
  /\ verify_token_split env_alice req_alice w_init
     = verify_token_split env_alice req_alice_post w_init.
Proof.
  assert (H : bearer_token req_alice = bearer_token req_alice_post)
    by (vm_compute; reflexivity).
  split; [exact H|].
  exact (authorization_depends_on_token_only env_alice req_alice req_alice_post w_init H).
Defined.

Lemma miss_asks_directory_once_witness :
  presents req_alice alice_token
  /\ (forall e, token_cache w_expired !! alice_token = Some e ->
                e <= clock env_alice (clock_reads w_expired))
  /\ exists u p new,
       let o := directory env_alice (binds (trace w_expired))
                  (user_dn_of env_alice u) p in
       alice_token = u +:+ String PyStr.COLON p
       /\ PyStr.nonempty u = true /\ PyStr.nonempty p = true
       /\ PyStr.all token_char u = true
       /\ trace (verify_token_split env_alice req_alice w_expired).2
          = trace w_expired ++ new
       /\ List.filter is_bind new = [EvLdapBind (user_dn_of env_alice u) p o]
       /\ ((verify_token_split env_alice req_alice w_expired).1 = Ok true
           <-> o = BindAccepted \/ o = BindRejected)
       /\ ((verify_token_split env_alice req_alice w_expired).1
           = Raise Invalid_Username_or_Password
           <-> o <> BindAccepted /\ o <> BindRejected).
Proof.
  assert (Hstale : forall e, token_cache w_expired !! alice_token = Some e ->
                             e <= clock env_alice (clock_reads w_expired)).
  { intros e H. vm_compute in H. injection H as <-. vm_compute. discriminate. }
  split; [exact presents_alice|]. split; [exact Hstale|].
  exact (miss_asks_directory_once env_alice req_alice alice_token w_expired
           presents_alice Hstale).
Defined.



(** ** The cache over any request *)

Section Cache2.

Context (env : Env).

(** What the application leaves of the world: nothing changed, or what
    the handler's dependency left, with the send on top when it
    returned. *)
Lemma app_world req w :
  (app env req w).2 = w
  \/ exists p,
       routed req p
       /\ let v := verify_token_split env req w in
          (app env req w).2 = v.2
          \/ (v.1 = Ok true
              /\ (app env req w).2
                 = mkWorld (token_cache v.2) (clock_reads v.2)
                     (trace v.2 ++ [EvSend (forward_request p req)])).
Proof.
  unfold app. destruct (is_preflight req) eqn:Hpre; [by left|].
  destruct (is_docs_request req) eqn:Hdocs; [by left|].
  destruct (match_route (path req)) as [p|] eqn:Hroute; [|by left].
  destruct (bool_decide (method req ∈ route_methods)) eqn:Hm; [|by left].
  right. exists p. split.
  { split; [done|]. split; [done|]. split; [done|]. by apply bool_decide_eq_true in Hm. }
  cbv zeta.
  destruct (verify_token_split_step env req w) as (new & _ & _ & Hout).
  unfold bind.
  destruct (verify_token_split env req w) as [[a|e] w1]; cbn [fst snd] in *.
  - right. split.
    { destruct Hout as [(_ & _ & _ & [H|[H|[H|H]]])
                       |(tok & u & q & _ & _ & _ & _ & [(H & _)|(H & _)])];
        congruence. }
    unfold proxy_ollama, bind, log, ret, raise. cbn [token_cache clock_reads trace].
    by destruct (backend env (forward_request p req)).
  - by left.
Qed.

(** An entry found in the cache after a request was there before, with
    the same expiry, or it is the entry of the request's own token,
    stored with expiry [current_time + CACHE_TTL] by a request that was
    authorized. So a request adds at most its own key, a refused
    request adds nothing, and a hit does not extend an expiry. *)
Theorem cache_change_per_request req w k v :
  token_cache (app env req w).2 !! k = Some v ->
  token_cache w !! k = Some v
  \/ (presents req k
      /\ v = clock env (clock_reads w) + CACHE_TTL env
      /\ (verify_token_split env req w).1 = Ok true).
Proof.
  assert (token_cache (verify_token_split env req w).2 !! k = Some v ->
          token_cache w !! k = Some v
          \/ (presents req k
              /\ v = clock env (clock_reads w) + CACHE_TTL env
              /\ (verify_token_split env req w).1 = Ok true)) as Hv.
  { destruct (verify_token_split_step env req w)
      as (new & _ & _ & [(-> & _)|(tok & u & p & Hp & _ & _ & _ & H)]); [by left|].
    destruct H as [(_ & -> & _)|(Hr & -> & _)].
    - intros [_ H]%lookup_delete_Some. by left.
    - intros H%swept_lookup. destruct (decide (k = tok)) as [->|Hne].
      + rewrite lookup_insert_eq in H. injection H as <-. by right.
      + rewrite lookup_insert_ne in H by done. by left. }
  destruct (app_world req w) as [->|(p & _ & [->|(_ & ->)])]; [by left|exact Hv..].
Qed.

(** No request evicts an entry that is still valid at the readings of
    the clock the request can make. *)
Theorem live_entries_survive req w k v :
  token_cache w !! k = Some v ->
  clock env (clock_reads w) < v ->
  clock env (S (clock_reads w)) <= v ->
  token_cache (app env req w).2 !! k = Some v.
Proof.
  intros Hk Hlt Hle.
  pose proof (verify_token_split_keeps_fresh env req w k v Hk Hlt Hle) as Hv.
  destruct (app_world req w) as [->|(p & _ & [->|(_ & ->)])]; done.
Qed.

(** Every cached credential went through a bind that returned: the
    invariant holds after a request when it held before. *)
Lemma cache_justified_kept req w :
  cache_justified env w -> cache_justified env (app env req w).2.
Proof.
  intros Hinv.
  assert (forall w' new, trace w' = trace w ++ new ->
            forall k v, token_cache w !! k = Some v ->
              exists u p o, PyStr.split1 PyStr.COLON k = [u; p]
                            /\ bind_returns o = true
                            /\ EvLdapBind (user_dn_of env u) p o ∈ trace w') as Hold.
  { intros w' new Hnew k v Hk. destruct (Hinv k v Hk) as (u & p & o & Hs & Ho & Hin).
    exists u, p, o. split; [done|]. split; [done|].
    rewrite Hnew. apply elem_of_app. by left. }
  assert (cache_justified env (verify_token_split env req w).2) as Hv.
  { intros k v Hk.
    destruct (verify_token_split_step env req w)
      as (new & Hnew & _ & [(Hc & _)|(tok & u & p & Hp & Hs & _ & _ & H)]).
    - rewrite Hc in Hk. exact (Hold _ new Hnew k v Hk).
    - destruct H as [(_ & Hc & _)|(_ & Hc & _ & o & Ho & Hin)]; rewrite Hc in Hk.
      + apply lookup_delete_Some in Hk as [_ Hk]. exact (Hold _ new Hnew k v Hk).
      + apply swept_lookup in Hk. destruct (decide (k = tok)) as [->|Hne].
        * exists u, p, o. split; [done|]. split; [done|].
          rewrite Hnew. apply elem_of_app. by right.
        * rewrite lookup_insert_ne in Hk by done. exact (Hold _ new Hnew k v Hk). }
  destruct (app_world req w) as [->|(p & _ & [->|(_ & ->)])]; [done..|].
  intros k v Hk. cbn [token_cache] in Hk.
  destruct (Hv k v Hk) as (u & p' & o & Hs & Ho & Hin).
  exists u, p', o. split; [done|]. split; [done|].
  cbn [trace]. apply elem_of_app. by left.
Qed.

(** Every expiry in the cache is an earlier reading of the clock plus
    [CACHE_TTL]: the invariant holds after a request when it held
    before. *)
Lemma cache_expiries_bounded_kept req w :
  cache_expiries_bounded env w -> cache_expiries_bounded env (app env req w).2.
Proof.
  intros Hinv.
  assert (cache_expiries_bounded env (verify_token_split env req w).2) as Hv.
  { intros k v Hk.
    pose proof (verify_token_split_reads env req w) as Hreads.
    destruct (verify_token_split_step env req w)
      as (new & _ & _ & [(Hc & _)|(tok & u & p & _ & _ & _ & _ & H)]).
    - rewrite Hc in Hk. destruct (Hinv k v Hk) as (i & Hi & ->).
      exists i. split; [lia|done].
    - destruct H as [(_ & Hc & _)|(_ & Hc & Hr & _)]; rewrite Hc in Hk.
      + apply lookup_delete_Some in Hk as [_ Hk].
        destruct (Hinv k v Hk) as (i & Hi & ->). exists i. split; [lia|done].
      + apply swept_lookup in Hk. destruct (decide (k = tok)) as [->|Hne].
        * rewrite lookup_insert_eq in Hk. injection Hk as <-.
          exists (clock_reads w). split; [lia|done].
        * rewrite lookup_insert_ne in Hk by done.
          destruct (Hinv k v Hk) as (i & Hi & ->). exists i. split; [lia|done]. }
  destruct (app_world req w) as [->|(p & _ & [->|(_ & ->)])]; done.
Qed.

(** The sweep never adds or changes an entry and never makes the cache
    larger; when nothing has expired it removes nothing, however large
    the cache is. *)
Theorem sweep_keeps_live_cache w :
  let w' := (clean_expired_cache env w).2 in
  (forall k v, token_cache w' !! k = Some v -> token_cache w !! k = Some v)
  /\ (size (token_cache w') <= size (token_cache w))%nat
  /\ ((forall k v, token_cache w !! k = Some v -> clock env (clock_reads w) <= v) ->
      token_cache w' = token_cache w).
Proof.
  cbv zeta. rewrite clean_expired_cache_run. cbn [snd token_cache].
  split; [intros k v; apply swept_lookup|]. split.
  - apply map_subseteq_size. unfold swept.
    destruct (1000 <? size (token_cache w))%nat; [apply map_filter_subseteq|done].
  - intros Hlive. unfold swept.
    destruct (1000 <? size (token_cache w))%nat; [|done].
    apply map_eq. intros k. destruct (token_cache w !! k) as [v|] eqn:Hk.
    + apply map_lookup_filter_Some. split; [done|]. cbn. by apply (Hlive k).
    + apply map_lookup_filter_None. by left.
Qed.

End Cache2.

Lemma cache_change_per_request_witness :
  token_cache (app env_alice req_alice w_init).2 !! alice_token
  = Some (stub_clock 0 + 1800)
  /\ (token_cache w_init !! alice_token = Some (stub_clock 0 + 1800)
      \/ (presents req_alice alice_token
          /\ stub_clock 0 + 1800
             = clock env_alice (clock_reads w_init) + CACHE_TTL env_alice
          /\ (verify_token_split env_alice req_alice w_init).1 = Ok true)).
Proof.
  assert (H : token_cache (app env_alice req_alice w_init).2 !! alice_token
              = Some (stub_clock 0 + 1800)) by (vm_compute; reflexivity).
  split; [exact H|].
  exact (cache_change_per_request env_alice req_alice w_init alice_token _ H).
Defined.

Lemma live_entries_survive_witness :
  token_cache w_cached !! alice_token = Some (stub_clock 0 + 1800)
  /\ clock env_alice (clock_reads w_cached) < stub_clock 0 + 1800
  /\ clock env_alice (S (clock_reads w_cached)) <= stub_clock 0 + 1800
  /\ token_cache (app env_alice req_bob w_cached).2 !! alice_token
     = Some (stub_clock 0 + 1800).
Proof.
  assert (H1 : token_cache w_cached !! alice_token = Some (stub_clock 0 + 1800))
    by (vm_compute; reflexivity).
  assert (H2 : clock env_alice (clock_reads w_cached) < stub_clock 0 + 1800)
    by (vm_compute; reflexivity).
  assert (H3 : clock env_alice (S (clock_reads w_cached)) <= stub_clock 0 + 1800)
    by (vm_compute; discriminate).
  split; [exact H1|]. split; [exact H2|]. split; [exact H3|].
  exact (live_entries_survive env_alice req_bob w_cached alice_token _ H1 H2 H3).
Defined.

(** ** The cache in every state the process can reach *)

(** The process starts with an empty cache (line 29). Whatever requests
    it has handled since, every key in the cache is at most 256
    characters long and accepted by [TOKEN_PATTERN]. *)
Theorem reachable_keys_accepted env requests n tr :
  cache_keys_accepted (handle env requests (mkWorld ∅ n tr)).
Proof.
  assert (forall w, cache_keys_accepted w ->
                    cache_keys_accepted (handle env requests w)) as H.
  { induction requests as [|r rs IH]; intros w Hw; [done|].
    cbn [handle]. by apply IH, app_keys. }
  apply H. intros k [v Hk]. cbn [token_cache] in Hk. by rewrite lookup_empty in Hk.
Qed.

(** Whatever requests the process has handled, every credential in the
    cache went through a bind, recorded since, that returned; the
    directory may have rejected it. *)
Theorem reachable_cache_justified env requests n tr :
  cache_justified env (handle env requests (mkWorld ∅ n tr)).
Proof.
  assert (forall w, cache_justified env w ->
                    cache_justified env (handle env requests w)) as H.
  { induction requests as [|r rs IH]; intros w Hw; [done|].
    cbn [handle]. by apply IH, cache_justified_kept. }
  apply H. intros k v Hk. cbn [token_cache] in Hk. by rewrite lookup_empty in Hk.
Qed.

(** Whatever requests the process has handled, every expiry in the
    cache is a reading of the clock made before, plus [CACHE_TTL]: no
    entry is valid for longer than that after it was stored. *)
Theorem reachable_expiries_bounded env requests n tr :
  cache_expiries_bounded env (handle env requests (mkWorld ∅ n tr)).
Proof.
  assert (forall w, cache_expiries_bounded env w ->
                    cache_expiries_bounded env (handle env requests w)) as H.
  { induction requests as [|r rs IH]; intros w Hw; [done|].
    cbn [handle]. by apply IH, cache_expiries_bounded_kept. }
  apply H. intros k v Hk. cbn [token_cache] in Hk. by rewrite lookup_empty in Hk.
Qed.

Lemma sweep_keeps_live_cache_witness :
  (forall k v, token_cache w_live !! k = Some v ->
               clock env_alice (clock_reads w_live) <= v)
  /\ (1000 < size (token_cache w_live))%nat
  /\ token_cache (clean_expired_cache env_alice w_live).2 = token_cache w_live.
Proof.
  assert (H : forall k v, token_cache w_live !! k = Some v ->
                          clock env_alice (clock_reads w_live) <= v).
  { intros k v Hk. apply elem_of_list_to_map_2 in Hk.
    apply list_elem_of_In, in_map_iff in Hk as (i & [= _ <-] & _).
    simpl. unfold stub_clock. lia. }
  split; [exact H|].
  split; [apply Nat.ltb_lt; vm_compute; reflexivity|].
  exact (proj2 (proj2 (sweep_keeps_live_cache env_alice w_live)) H).
Defined.

(** ** The gateway as a whole *)

Section Gateway2.

Context (env : Env).


End Gateway2.

(** The header that carried the credential is among the headers handed
    to the backend client, value unchanged. *)
Theorem authorization_header_forwarded req p h :
  headers_get "Authorization" (headers req) = Some h ->
  ("authorization", h) ∈ fwd_headers (forward_request p req).
Proof.
  intros H. unfold headers_get in H. cbn [forward_request fwd_headers].
  apply assoc_Some_elem.
  rewrite !assoc_dict_pop, assoc_dict_of_headers.
  rewrite decide_False by discriminate. rewrite decide_False by discriminate.
  exact H.
Qed.

Lemma authorization_header_forwarded_witness :
  headers_get "Authorization" (headers req_alice) = Some "Bearer alice:Secr3t-1"
  /\ ("authorization", "Bearer alice:Secr3t-1")
     ∈ fwd_headers (forward_request "api/tags" req_alice).
Proof.
  assert (H : headers_get "Authorization" (headers req_alice)
              = Some "Bearer alice:Secr3t-1") by (vm_compute; reflexivity).
  split; [exact H|].
  exact (authorization_header_forwarded req_alice "api/tags" _ H).
Defined.
